(** * LiveFile: a shallow embedding of [src/components/LiveFile.js]

    The class keeps an in-memory copy of one file, re-reads it when the
    file-system watcher fires (at most once per [watcher_delay]
    milliseconds), hands the copy to a caller-supplied renderer and
    reports reloads and failures to two handler slots.

    Layout of the development:
    - [Js]       the fragment of ECMAScript the class relies on: values,
                 [typeof], truthiness, [== undefined], default parameters,
                 and ordinary objects (own properties, accessors,
                 extensibility, a prototype);
    - [Numbers]  the arithmetic of lines 18 and 83, with two instances:
                 IEEE binary64, which is what the code runs on, and the
                 integers, for the statements about whole milliseconds;
    - [Host]     what the embedding does not own: the clock behind
                 [Date.now()], [FileSystem.watch], caller-supplied
                 functions, caller-owned objects;
    - the class itself, one definition per method, in a state-and-exception
      monad over the instance and the Node runtime it talks to;
    - the properties.

    What is taken for granted: the built-ins are the ones the language and
    Node define (%Object.prototype%, [Date.now], [fs]); [path] is a
    string and [watcher_delay] a Number or [undefined]; the methods of an
    instance are those of the class (no subclass and no assignment
    overrides [_delay_check] or [_reload_content], which the change
    listener looks up by name). *)

From Corelib Require Import PrimFloat.
From Corelib Require FloatAxioms.
From Corelib Require Import SpecFloat FloatOps.
From Stdlib Require Import ZArith List Bool Lia.
From stdpp Require Import base strings gmap.
Import ListNotations.

Local Open Scope string_scope.

(* ------------------------------------------------------------------ *)
(** ** The ECMAScript fragment *)

Module Js.

(** Function objects. The two arrow functions of lines 11-12 are named;
    everything the caller passes in is a [Closure]. *)
Inductive function :=
| DefaultReload               (* (content) => {} *)
| DefaultError                (* (error) => {} *)
| Intrinsic (name : string)   (* built-ins reached through %Object.prototype% *)
| Closure (id : nat).

(** Non-callable objects. *)
Inductive object_ref :=
| ObjectPrototype             (* %Object.prototype% *)
| EmptyObject                 (* the literal {} of [render]'s default parameter *)
| HostObject (id : nat).      (* anything else: Error instances, option bags, ... *)

(** Values, as far as the class tells them apart: it applies [typeof]
    against 'function', truthiness and [== undefined] to them, and passes
    them on. A Number that is not whole behaves there as a whole one does
    (NaN as 0). *)
Inductive value :=
| VUndefined
| VNull
| VBoolean (b : bool)
| VNumber (n : Z)
| VString (s : string)
| VFunction (f : function)
| VObject (o : object_ref).

#[global] Instance function_eq_dec : EqDecision function.
Proof. solve_decision. Defined.
#[global] Instance object_ref_eq_dec : EqDecision object_ref.
Proof. solve_decision. Defined.
#[global] Instance value_eq_dec : EqDecision value.
Proof. solve_decision. Defined.

(** What a [throw] carries. *)
Inductive exn :=
| Error (message : string)    (* new Error(message) *)
| TypeError                   (* raised by the engine itself *)
| Raised (v : value).         (* raised by caller code or by the runtime *)

Inductive completion (A : Type) :=
| Normal (a : A)
| Throw (e : exn).
Arguments Normal {A} a.
Arguments Throw {A} e.

Definition typeof (v : value) : string :=
  match v with
  | VUndefined => "undefined"
  | VNull => "object"
  | VBoolean _ => "boolean"
  | VNumber _ => "number"
  | VString _ => "string"
  | VFunction _ => "function"
  | VObject _ => "object"
  end.

(** [ToBoolean]. *)
Definition to_boolean (v : value) : bool :=
  match v with
  | VUndefined | VNull => false
  | VBoolean b => b
  | VNumber n => negb (n =? 0)%Z
  | VString s => negb (String.eqb s "")
  | VFunction _ | VObject _ => true
  end.

(** [v == undefined]: loose equality holds for [undefined] and [null]
    only. *)
Definition loose_eq_undefined (v : value) : bool :=
  match v with
  | VUndefined | VNull => true
  | _ => false
  end.

(** A parameter declared [p = d] takes [d] when the argument is missing
    or [undefined]. *)
Definition default_parameter (arg d : value) : value :=
  match arg with
  | VUndefined => d
  | _ => arg
  end.

(** Whether the function is one of the two arrow functions of lines
    11-12, which have no [this] of their own and an empty body. *)
Definition is_default (f : function) : bool :=
  match f with
  | DefaultReload | DefaultError => true
  | _ => false
  end.

(** *** Ordinary objects

    What a lookup finds for a key, on the object or along its prototype
    chain. *)
Inductive property :=
| Absent
| DataProperty (v : value) (writable : bool)
| ProtoAccessor               (* get/set __proto__ of %Object.prototype% *)
| Accessor (getter setter : option function).

(** An ordinary object. [own] holds the own properties that are writable
    data properties, which is all an object literal has; [guarded] holds
    the own properties of any other kind (read-only, accessors), which
    only code holding the object can define, as it can make the object
    non-extensible. A key in [own] is not looked up in [guarded]. *)
Record object := {
  own : gmap string value;
  guarded : gmap string property;
  extensible : bool;
  proto : value;              (* [[Prototype]]: an object, a function or null *)
}.

Definition with_own (m : gmap string value) (o : object) : object :=
  {| own := m; guarded := guarded o; extensible := extensible o;
     proto := proto o |}.

Definition with_proto (v : value) (o : object) : object :=
  {| own := own o; guarded := guarded o; extensible := extensible o;
     proto := v |}.

(** The function-valued properties of %Object.prototype%, all writable
    data properties. *)
Definition object_prototype_methods : list string :=
  [ "constructor"; "hasOwnProperty"; "isPrototypeOf";
    "propertyIsEnumerable"; "toLocaleString"; "toString"; "valueOf";
    "__defineGetter__"; "__defineSetter__";
    "__lookupGetter__"; "__lookupSetter__" ].

Definition object_prototype_property (key : string) : property :=
  if decide (key = "__proto__") then ProtoAccessor
  else if decide (key ∈ object_prototype_methods)
       then DataProperty (VFunction (Intrinsic key)) true
       else Absent.

(** The setter of [__proto__]: given an object or [null] it re-parents the
    receiver, which fails on a non-extensible receiver unless the parent
    stays the same; every other value is ignored. *)
Definition set_prototype (o : object) (v : value) : completion object :=
  match v with
  | VNull | VFunction _ | VObject _ =>
      if extensible o || bool_decide (proto o = v)
      then Normal (with_proto v o)
      else Throw TypeError
  | _ => Normal o
  end.

End Js.
Export Js.

(* ------------------------------------------------------------------ *)
(** ** Numbers

    The class does two things with numbers: it subtracts (lines 18 and 83)
    and it compares with [>] (line 83). *)

Record Numbers := {
  number : Type;
  minus : number -> number -> number;
  exceeds : number -> number -> bool;       (* [exceeds a b] is [a > b] *)
}.

(** IEEE 754 binary64, the Number type of the language: [Date.now()]
    returns one, and [watcher_delay] is used as one, so that it may be
    fractional, infinite or NaN. An omitted [watcher_delay] is
    [undefined], which both uses convert to NaN. *)
Definition doubles : Numbers :=
  {| number := float;
     minus := PrimFloat.sub;
     exceeds := fun a b => PrimFloat.ltb b a |}.

(** Whole numbers with exact arithmetic. On whole numbers of milliseconds
    whose differences stay below 2^53 in magnitude, as timestamps and
    delays are, binary64 computes the same. *)
Definition integers : Numbers :=
  {| number := Z; minus := Z.sub; exceeds := Z.gtb |}.

(* ------------------------------------------------------------------ *)
(** ** The host

    Everything the class calls but does not define. *)

(** Calls that leave the class, in program order. *)
Inductive event :=
| FsWatch (p : string) (id : nat)     (* FileSystem.watch(p, ..) returned watcher id *)
| FsWatchThrew (p : string)           (* FileSystem.watch(p, ..) threw *)
| WatcherOnError (id : nat)           (* watcher.on('error', ..) *)
| FsReadFile (p : string)             (* FileSystem.readFile(p, ..) *)
| WatcherClose (id : nat)             (* watcher.close() *)
| Invoke (f : function) (args : list value).

(** A caller-supplied function is opaque: the embedding records the call
    and takes its outcome from the host. Called as a method of the
    handlers object (lines 107, 123, 127, and the accessors that object
    may carry), it receives that object as [this] and may leave it in any
    state; having seen it, the caller may also rewrite it later (see
    [Tamper]). What caller code does to the instance otherwise, it does
    through the public methods, as further actions of the history. A
    function is taken to complete the same way whenever it is called with
    the same arguments on the same receiver. *)
Record Host (N : Numbers) := {
  (** the value of the n-th evaluation of [Date.now()] *)
  clock : nat -> number N;
  (** whether [FileSystem.watch(p, ..)] throws, given what has happened so
      far (it does when [p] does not exist) *)
  watch_throws : list event -> string -> option exn;
  (** the outcome of calling a caller-supplied function *)
  apply : function -> list value -> completion value;
  (** the outcome of calling it as a method of the handlers object, and
      the handlers object as the call leaves it *)
  apply_method : function -> object -> list value -> completion value * object;
  (** what a lookup finds on a caller-owned object or function, along its
      own prototype chain *)
  foreign_property : value -> string -> property;
}.
Arguments clock {N} _ _.
Arguments watch_throws {N} _ _ _.
Arguments apply {N} _ _ _.
Arguments apply_method {N} _ _ _ _.
Arguments foreign_property {N} _ _ _.

Definition clock_monotone (H : Host integers) : Prop :=
  forall i j : nat, i <= j -> (clock H i <= clock H j)%Z.

(* ------------------------------------------------------------------ *)
(** ** The instance and the runtime around it *)

(** The private fields of lines 4-13. [watcher] is [None] until
    [_init_watcher] has stored a handle. [watcher_delay] is held as the
    number the two uses of it see. *)
Record LiveFile (N : Numbers) := {
  path : string;
  content : value;
  watcher : option nat;
  watcher_delay : number N;
  last_update : number N;
  renderer : value;
  handlers : object;
}.
Arguments path {N} _.
Arguments content {N} _.
Arguments watcher {N} _.
Arguments watcher_delay {N} _.
Arguments last_update {N} _.
Arguments renderer {N} _.
Arguments handlers {N} _.

Record World := {
  ticks : nat;                (* evaluations of Date.now() so far *)
  fs_watchers : list bool;    (* FSWatcher handles by id; true while watching *)
  pending_reads : nat;        (* readFile requests not yet completed *)
  trace : list event;
  exposed : bool;             (* caller code has been handed the handlers object *)
}.

Record Sys (N : Numbers) := { this : LiveFile N; world : World }.
Arguments this {N} _.
Arguments world {N} _.

Section State.

Context {N : Numbers}.

Definition with_content (v : value) (o : LiveFile N) : LiveFile N :=
  {| path := path o; content := v; watcher := watcher o;
     watcher_delay := watcher_delay o; last_update := last_update o;
     renderer := renderer o; handlers := handlers o |}.

Definition with_watcher (w : option nat) (o : LiveFile N) : LiveFile N :=
  {| path := path o; content := content o; watcher := w;
     watcher_delay := watcher_delay o; last_update := last_update o;
     renderer := renderer o; handlers := handlers o |}.

Definition with_last_update (t : number N) (o : LiveFile N) : LiveFile N :=
  {| path := path o; content := content o; watcher := watcher o;
     watcher_delay := watcher_delay o; last_update := t;
     renderer := renderer o; handlers := handlers o |}.

Definition with_renderer (r : value) (o : LiveFile N) : LiveFile N :=
  {| path := path o; content := content o; watcher := watcher o;
     watcher_delay := watcher_delay o; last_update := last_update o;
     renderer := r; handlers := handlers o |}.

Definition with_handlers (h : object) (o : LiveFile N) : LiveFile N :=
  {| path := path o; content := content o; watcher := watcher o;
     watcher_delay := watcher_delay o; last_update := last_update o;
     renderer := renderer o; handlers := h |}.

End State.

Definition tick (w : World) : World :=
  {| ticks := S (ticks w); fs_watchers := fs_watchers w;
     pending_reads := pending_reads w; trace := trace w;
     exposed := exposed w |}.

Definition emit (e : event) (w : World) : World :=
  {| ticks := ticks w; fs_watchers := fs_watchers w;
     pending_reads := pending_reads w; trace := trace w ++ [e];
     exposed := exposed w |}.

Definition expose (w : World) : World :=
  {| ticks := ticks w; fs_watchers := fs_watchers w;
     pending_reads := pending_reads w; trace := trace w;
     exposed := true |}.

(** A new watcher, watching. *)
Definition watcher_opened (w : World) : World :=
  {| ticks := ticks w; fs_watchers := fs_watchers w ++ [true];
     pending_reads := pending_reads w; trace := trace w;
     exposed := exposed w |}.

Definition watcher_closed (id : nat) (w : World) : World :=
  {| ticks := ticks w; fs_watchers := <[id := false]> (fs_watchers w);
     pending_reads := pending_reads w; trace := trace w;
     exposed := exposed w |}.

(** The runtime state after [readFile] has been called for [p]. *)
Definition read_queued (p : string) (w : World) : World :=
  {| ticks := ticks w; fs_watchers := fs_watchers w;
     pending_reads := S (pending_reads w);
     trace := trace w ++ [FsReadFile p];
     exposed := exposed w |}.

Definition read_dequeued (w : World) : World :=
  {| ticks := ticks w; fs_watchers := fs_watchers w;
     pending_reads := pred (pending_reads w); trace := trace w;
     exposed := exposed w |}.

(** *** The monad: a state transformer that may stop with an exception.
    State changes made before a [throw] stay. *)
Definition M (N : Numbers) (A : Type) : Type := Sys N -> completion A * Sys N.

Section Monad.

Context {N : Numbers}.

Definition ret {A} (a : A) : M N A := fun s => (Normal a, s).

Definition bind {A B} (m : M N A) (k : A -> M N B) : M N B :=
  fun s =>
    match m s with
    | (Normal a, s') => k a s'
    | (Throw e, s') => (Throw e, s')
    end.

Definition throw {A} (e : exn) : M N A := fun s => (Throw e, s).

Definition lift {A} (c : completion A) : M N A := fun s => (c, s).

Definition gets {A} (f : LiveFile N -> A) : M N A :=
  fun s => (Normal (f (this s)), s).

Definition update (f : LiveFile N -> LiveFile N) : M N unit :=
  fun s => (Normal tt, {| this := f (this s); world := world s |}).

Definition effect (f : World -> World) : M N unit :=
  fun s => (Normal tt, {| this := this s; world := f (world s) |}).

End Monad.

Declare Scope js_scope.
Delimit Scope js_scope with js.
Notation "'let*' x ':=' m 'in' k" := (bind m (fun x => k))
  (at level 10, x name, m at level 100, k at level 200) : js_scope.
Local Open Scope js_scope.

(* ------------------------------------------------------------------ *)
(** ** The class *)

Section LiveFile.

Context {N : Numbers} (H : Host N).

(** *** Host calls *)

Definition Date_now : M N (number N) :=
  fun s =>
    (Normal (clock H (ticks (world s))),
     {| this := this s; world := tick (world s) |}).

(** [FileSystem.watch(p, { encoding: 'utf8' }, listener)]: a new watcher,
    watching, or the exception the call throws. *)
Definition FileSystem_watch (p : string) : M N nat :=
  fun s =>
    match watch_throws H (trace (world s)) p with
    | Some e =>
        (Throw e,
         {| this := this s; world := emit (FsWatchThrew p) (world s) |})
    | None =>
        let id := length (fs_watchers (world s)) in
        (Normal id,
         {| this := this s;
            world := emit (FsWatch p id) (watcher_opened (world s)) |})
    end.

(** [FileSystem.readFile(p, { encoding: 'utf8' }, callback)]: the request is
    queued; the callback runs later, see [readFile_callback]. *)
Definition FileSystem_readFile (p : string) : M N unit :=
  effect (read_queued p).

Definition watcher_close (id : nat) : M N unit :=
  effect (fun w => emit (WatcherClose id) (watcher_closed id w)).

(** *** Calls of caller-supplied functions *)

(** What running [f(args)] comes to. The two default handlers have empty
    bodies; any other function completes as the host says. *)
Definition completes (f : function) (args : list value) : completion value :=
  match f with
  | DefaultReload | DefaultError => Normal VUndefined
  | _ => apply H f args
  end.

(** [this.#renderer(args)], line 56: the receiver is the instance, whose
    fields are private; what the function does with the public methods
    comes after the call, which is the last thing [render] does. *)
Definition call (callee : value) (args : list value) : M N value :=
  match callee with
  | VFunction f =>
      let* _ := effect (emit (Invoke f args)) in
      lift (completes f args)
  | _ => throw TypeError
  end.

(** What running [receiver.f(args)] comes to: the completion, and the
    receiver as the call leaves it. *)
Definition completes_method (f : function) (receiver : object) (args : list value)
  : completion value * object :=
  if is_default f then (Normal VUndefined, receiver)
  else apply_method H f receiver args.

(** [this.#handlers.f(args)], lines 107, 123 and 127, and the accessors
    lines 66 and 69 may run: the receiver is the handlers object. A
    function that is not one of the two defaults has seen the object once
    it has run. The code an accessor runs is taken not to call the
    instance's methods while [handle] is still running. *)
Definition call_method (callee : value) (args : list value) : M N value :=
  match callee with
  | VFunction f =>
      let* _ := effect (emit (Invoke f args)) in
      if is_default f then ret VUndefined
      else
        let* hs := gets handlers in
        let* _ := effect expose in
        let* _ := update (with_handlers (snd (apply_method H f hs args))) in
        lift (fst (apply_method H f hs args))
  | _ => throw TypeError
  end.

(** *** Property access on the handlers object *)

(** What the object itself has under [key]. *)
Definition own_property (o : object) (key : string) : property :=
  match own o !! key with
  | Some v => DataProperty v true
  | None => default Absent (guarded o !! key)
  end.

(** What its prototype chain has. *)
Definition inherited (o : object) (key : string) : property :=
  match proto o with
  | VObject ObjectPrototype => object_prototype_property key
  | VFunction _ | VObject _ => foreign_property H (proto o) key
  | _ => Absent
  end.

Definition find_property (o : object) (key : string) : property :=
  match own_property o key with
  | Absent => inherited o key
  | p => p
  end.

(** [this.#handlers[key]] *)
Definition get_property (key : string) : M N value :=
  let* hs := gets handlers in
  match find_property hs key with
  | Absent => ret VUndefined
  | DataProperty v _ => ret v
  | ProtoAccessor => ret (proto hs)
  | Accessor None _ => ret VUndefined
  | Accessor (Some getter) _ => call_method (VFunction getter) []
  end.

(** [this.#handlers[key] = v] in strict code (class bodies are strict). *)
Definition set_property (key : string) (v : value) : M N unit :=
  let* hs := gets handlers in
  let store := update (with_handlers (with_own (<[key := v]> (own hs)) hs)) in
  let reparent :=
    let* hs' := lift (set_prototype hs v) in update (with_handlers hs') in
  let run_setter (setter : option function) :=
    match setter with
    | None => throw TypeError
    | Some f => let* _ := call_method (VFunction f) [v] in ret tt
    end in
  match own_property hs key with
  | DataProperty _ true => store
  | DataProperty _ false => throw TypeError
  | ProtoAccessor => reparent
  | Accessor _ setter => run_setter setter
  | Absent =>
      match inherited hs key with
      | Absent | DataProperty _ true =>
          if extensible hs then store else throw TypeError
      | DataProperty _ false => throw TypeError
      | ProtoAccessor => reparent
      | Accessor _ setter => run_setter setter
      end
  end.

(** *** The methods *)

(** Lines 10-13. *)
Definition default_handlers : object :=
  {| own := <["reload" := VFunction DefaultReload]>
              (<["error" := VFunction DefaultError]> ∅);
     guarded := ∅;
     extensible := true;
     proto := VObject ObjectPrototype |}.

(** Lines 31-33. *)
Definition set_content (c : value) : M N unit :=
  update (with_content c).

(** Lines 40-47. *)
Definition set_renderer (r : value) : M N unit :=
  if negb (String.eqb (typeof r) "function")
  then throw (Error
    "set_renderer(renderer) -> renderer must be a Function -> (content, options) => {}")
  else update (with_renderer r).

(** Lines 55-57. *)
Definition render (options : value) : M N value :=
  let options := default_parameter options (VObject EmptyObject) in
  let* r := gets renderer in
  let* c := gets content in
  call r [c; options].

(** Lines 65-70. *)
Definition handle (type : string) (handler : value) : M N unit :=
  let* current := get_property type in
  if loose_eq_undefined current
  then throw (Error (type +:+ " event is not supported on LiveFile."))
  else set_property type handler.

(** Lines 80-86. *)
Definition _delay_check (touch : value) : M N bool :=
  let touch := default_parameter touch (VBoolean true) in
  let* last := gets last_update in
  let* delay := gets watcher_delay in
  let* now := Date_now in
  let result := exceeds N (minus N now last) delay in
  let* _ :=
    if result && to_boolean touch
    then let* now' := Date_now in update (with_last_update now')
    else ret tt in
  ret result.

(** Lines 114-130, the call itself. *)
Definition _reload_content : M N unit :=
  let* p := gets path in
  FileSystem_readFile p.

(** Lines 121-128: the callback handed to [readFile]. *)
Definition readFile_callback (error content : value) : M N value :=
  if to_boolean error
  then
    let* h := get_property "error" in
    call_method h [error]
  else
    let* _ := update (with_content content) in
    let* h := get_property "reload" in
    let* _ := call_method h [content] in
    ret VUndefined.

(** Lines 101-103: the listener handed to [watch]. *)
Definition watch_listener : M N unit :=
  let* ok := _delay_check VUndefined in
  if ok then _reload_content else ret tt.

(** Line 107: the watcher's 'error' listener. *)
Definition watcher_error_listener (error : value) : M N value :=
  let* h := get_property "error" in
  call_method h [error].

(** Lines 92-108. When [watch] throws, the field keeps what it held. *)
Definition _init_watcher : M N unit :=
  let* p := gets path in
  let* id := FileSystem_watch p in
  let* _ := update (with_watcher (Some id)) in
  effect (emit (WatcherOnError id)).

(** Lines 136-139. *)
Definition _destroy : M N unit :=
  let* w := gets watcher in
  match w with
  | None => throw TypeError
  | Some id =>
      let* _ := watcher_close id in
      update (with_content (VString ""))
  end.

(** Lines 142-152. *)
Definition get_path : M N string := gets path.
Definition get_content : M N value := gets content.
Definition get_last_update : M N (number N) := gets last_update.

(** Lines 15-22: [new LiveFile({ path, watcher_delay, renderer })], with
    [delay] the number [watcher_delay] converts to. An exception leaves
    the caller without an instance; the state returned with it is what the
    runtime has seen by then. *)
Definition constructor (p : string) (delay : number N) (r : value) (w : World)
  : completion unit * Sys N :=
  let now := clock H (ticks w) in               (* Date.now() of line 18 *)
  let o := {| path := p; content := VUndefined; watcher := None;
              watcher_delay := delay; last_update := minus N now delay;
              renderer := r; handlers := default_handlers |} in
  (let* _ := _init_watcher in _reload_content)
    {| this := o; world := tick w |}.

(** *** The instance over time

    What can happen to a constructed instance: the caller invokes a method
    (every method is reachable from outside, the underscore is a naming
    convention), the runtime runs one of the callbacks the class has
    registered, or caller code that has been handed the handlers object
    rewrites it. *)
Inductive action :=
| SetContent (c : value)
| SetRenderer (r : value)
| Render (options : value)
| Handle (type : string) (handler : value)
| DelayCheck (touch : value)
| InitWatcher
| ReloadContent
| Destroy
| GetPath
| GetContent
| GetLastUpdate
| Changed (id : nat)                      (* watcher id reports a change *)
| WatcherFailed (id : nat) (error : value) (* watcher id emits 'error' *)
| ReadDone (error content : value)        (* a queued readFile completes *)
| Tamper (o : object).                    (* the handlers object is left as o *)

Definition watching (id : nat) (w : World) : bool :=
  default false (fs_watchers w !! id).

(** The runtime calls a watcher's listeners only while it is watching, and
    a [readFile] callback only for a request that is still queued; the
    handlers object is out of reach until a function has been called on
    it. *)
Definition enabled (a : action) (s : Sys N) : bool :=
  match a with
  | Changed id | WatcherFailed id _ => watching id (world s)
  | ReadDone _ _ => negb (Nat.eqb (pending_reads (world s)) 0)
  | Tamper _ => exposed (world s)
  | _ => true
  end.

Definition dequeue_read (s : Sys N) : Sys N :=
  {| this := this s; world := read_dequeued (world s) |}.

Definition perform (a : action) (s : Sys N) : Sys N :=
  match a with
  | SetContent c => snd (set_content c s)
  | SetRenderer r => snd (set_renderer r s)
  | Render options => snd (render options s)
  | Handle type handler => snd (handle type handler s)
  | DelayCheck touch => snd (_delay_check touch s)
  | InitWatcher => snd (_init_watcher s)
  | ReloadContent => snd (_reload_content s)
  | Destroy => snd (_destroy s)
  | GetPath => snd (get_path s)
  | GetContent => snd (get_content s)
  | GetLastUpdate => snd (get_last_update s)
  | Changed _ => snd (watch_listener s)
  | WatcherFailed _ error => snd (watcher_error_listener error s)
  | ReadDone error content => snd (readFile_callback error content (dequeue_read s))
  | Tamper o => snd (update (with_handlers o) s)
  end.

(** A history; an action the runtime would not deliver is skipped. *)
Fixpoint run (history : list action) (s : Sys N) : Sys N :=
  match history with
  | [] => s
  | a :: rest => run rest (if enabled a s then perform a s else s)
  end.

End LiveFile.

Arguments call_method : simpl never.
Arguments get_property : simpl never.
Arguments set_property : simpl never.

(* ------------------------------------------------------------------ *)
(** ** Concrete runtimes, for the worked examples *)

(** Nothing has happened yet. *)
Definition boot : World :=
  {| ticks := 0; fs_watchers := []; pending_reads := 0; trace := [];
     exposed := false |}.

(** A host whose [watch] succeeds, whose caller functions return
    [undefined] and leave their receiver alone, and whose caller objects
    have no properties, over a given clock. *)
Definition quiet_host (N : Numbers) (readings : nat -> number N) : Host N :=
  {| clock := readings;
     watch_throws := fun _ _ => None;
     apply := fun _ _ => Normal VUndefined;
     apply_method := fun _ receiver _ => (Normal VUndefined, receiver);
     foreign_property := fun _ _ => Absent |}.

(** Construction at 0 ms, a change reported at 50 ms, another at 150 ms.
    The first evaluation of [Date.now()] is the constructor's; each change
    evaluates it once for the comparison and, when accepted, once more for
    the new [last_update]. *)
Definition readings_0_50_150 (n : nat) : Z :=
  match n with
  | 0 => 0
  | 1 | 2 => 50
  | _ => 150
  end.

Definition is_read (e : event) : bool :=
  match e with
  | FsReadFile _ => true
  | _ => false
  end.

(** How many times [readFile] has been called so far. *)
Definition reads_issued {N : Numbers} (s : Sys N) : nat :=
  length (List.filter is_read (trace (world s))).

Definition example_host : Host integers := quiet_host integers readings_0_50_150.

(** [new LiveFile({ path: 'page.html', watcher_delay: 100, renderer })] at
    0 ms, then the two changes. *)
Definition example_constructed : Sys integers :=
  snd (constructor example_host "page.html" 100%Z (VFunction (Closure 0)) boot).

Definition example_after_50 : Sys integers :=
  run example_host [Changed 0] example_constructed.

Definition example_after_150 : Sys integers :=
  run example_host [Changed 0] example_after_50.

(** A clock that advances one millisecond per evaluation, and an instance
    constructed over it with a negative delay. *)
Definition millisecond_clock (n : nat) : Z := Z.of_nat n.

Definition negative_delay_constructed : Sys integers :=
  snd (constructor (quiet_host integers millisecond_clock) "page.html" (-1000)%Z
         (VFunction (Closure 0)) boot).

(** [FileSystem.watch] on a path that does not exist: the call throws
    (ENOENT). *)
Definition missing_path_host : Host integers :=
  {| clock := readings_0_50_150 : nat -> number integers;
     watch_throws := fun _ _ => Some (Raised (VObject (HostObject 404)));
     apply := fun _ _ => Normal VUndefined;
     apply_method := fun _ receiver _ => (Normal VUndefined, receiver);
     foreign_property := fun _ _ => Absent |}.

(** A caller whose function 1 is [function () { this.reload = g }], with
    [g] function 2; every other function leaves its receiver alone. *)
Definition rebinding_host : Host integers :=
  {| clock := readings_0_50_150 : nat -> number integers;
     watch_throws := fun _ _ => None;
     apply := fun _ _ => Normal VUndefined;
     apply_method := fun f receiver _ =>
       match f with
       | Closure 1 =>
           (Normal VUndefined,
            with_own (<["reload" := VFunction (Closure 2)]> (own receiver)) receiver)
       | _ => (Normal VUndefined, receiver)
       end;
     foreign_property := fun _ _ => Absent |}.

(** Readings in binary64: 1 at construction, 2 from then on. *)
Definition readings_1_2 (n : nat) : float :=
  match n with
  | 0 => 1
  | _ => 2
  end.

Definition two_53 : float := 0x1p+53.

(** [new LiveFile({ path, watcher_delay: 2 ** 53, renderer })] at reading
    1, in the arithmetic of the language and in exact arithmetic. *)
Definition rounding_host : Host doubles := quiet_host doubles readings_1_2.

Definition rounding_constructed : Sys doubles :=
  snd (constructor rounding_host "page.html" two_53 (VFunction (Closure 0)) boot).

Definition exact_host : Host integers :=
  quiet_host integers (fun n => match n with 0 => 1%Z | _ => 2%Z end).

Definition exact_constructed : Sys integers :=
  snd (constructor exact_host "page.html" (2 ^ 53)%Z (VFunction (Closure 0)) boot).

(** A delay of a tenth of a millisecond (the nearest binary64 number),
    and a clock that stands still. *)
Definition tenth : float := 0x1.999999999999ap-4.

Definition still_host : Host doubles :=
  quiet_host doubles (fun _ => 1700000000000%float).

Definition fractional_constructed : Sys doubles :=
  snd (constructor still_host "page.html" tenth (VFunction (Closure 0)) boot).

(** [new LiveFile({ path, renderer })]: the delay is [undefined], which
    lines 18 and 83 use as NaN. *)
Definition omitted_delay : float := nan.

(* ------------------------------------------------------------------ *)
(** ** Vocabulary for the statements *)

Section Vocabulary.

Context {N : Numbers}.

(** The comparison of line 83, at the clock reading the next evaluation of
    [Date.now()] will return. *)
Definition gate_opens (H : Host N) (s : Sys N) : bool :=
  exceeds N (minus N (clock H (ticks (world s))) (last_update (this s)))
          (watcher_delay (this s)).

(** Whether [_delay_check(touch)] is allowed to write. *)
Definition touching (touch : value) : bool :=
  to_boolean (default_parameter touch (VBoolean true)).

(** The actions that run the debounce check in writing mode. *)
Definition checks_gate (a : action) : bool :=
  match a with
  | DelayCheck touch => touching touch
  | Changed _ => true
  | _ => false
  end.


(** The handlers object as the class makes and keeps it: its prototype is
    %Object.prototype%, all its own properties are writable data
    properties, and their keys are the two slots of line 10 and whichever
    method names of %Object.prototype% have been registered on top of
    them. *)
Definition handlers_ordinary (o : object) : Prop :=
  proto o = VObject ObjectPrototype
  /\ guarded o = ∅
  /\ forall key : string,
       is_Some (own o !! key) ->
       key = "reload" \/ key = "error" \/ key ∈ object_prototype_methods.

(** No lookup on the object ends in an accessor. *)
Definition accessor_free (H : Host N) (o : object) : Prop :=
  forall key : string,
    match find_property H o key with
    | Accessor _ _ => False
    | _ => True
    end.

(** The functions the caller supplies leave the handlers object alone when
    they are called on it, as arrow functions and functions that do not
    use [this] do. *)
Definition methods_keep_receiver (H : Host N) : Prop :=
  forall (f : function) (receiver : object) (args : list value),
    snd (apply_method H f receiver args) = receiver.

(** The handle the instance holds names a watcher the runtime knows. *)
Definition watcher_valid (s : Sys N) : Prop :=
  forall id : nat,
    watcher (this s) = Some id -> id < length (fs_watchers (world s)).

(** What a successful construction establishes and every action keeps. *)
Definition well_formed (s : Sys N) : Prop :=
  watcher_valid s /\ is_Some (watcher (this s)).

Definition unsupported (type : string) : exn :=
  Error (type +:+ " event is not supported on LiveFile.").

(** The runtime state after [f(args)] has been called on the handlers
    object. *)
Definition invoked (f : function) (args : list value) (w : World) : World :=
  if is_default f then emit (Invoke f args) w
  else expose (emit (Invoke f args) w).

Definition is_invoke (e : event) : bool :=
  match e with
  | Invoke _ _ => true
  | _ => false
  end.

(** From [o] to [o'] nothing but the handlers object has changed. *)
Definition rebound (o o' : LiveFile N) : Prop :=
  exists hs : object, o' = with_handlers hs o.

(** From [w] to [w'] the runtime has seen at most [n] calls of
    caller-supplied functions and nothing else. *)
Definition called (w w' : World) (n : nat) : Prop :=
  ticks w' = ticks w
  /\ fs_watchers w' = fs_watchers w
  /\ pending_reads w' = pending_reads w
  /\ exists suffix : list event,
       trace w' = (trace w ++ suffix)%list
       /\ forallb is_invoke suffix = true
       /\ length suffix <= n.

(** The calls of caller-supplied functions recorded so far. *)
Definition calls (s : Sys N) : list event :=
  List.filter is_invoke (trace (world s)).

(** How many calls of caller-supplied functions the code of an action
    contains: the renderer at line 56; a getter and a setter at lines 66
    and 69; a getter and the handler at lines 107, 123 and 127. *)
Definition calls_out (a : action) : nat :=
  match a with
  | Render _ => 1
  | Handle _ _ | WatcherFailed _ _ | ReadDone _ _ => 2
  | _ => 0
  end.

(** The same on a handlers object without accessors. *)
Definition calls_out_plain (a : action) : nat :=
  match a with
  | Render _ | WatcherFailed _ _ | ReadDone _ _ => 1
  | _ => 0
  end.

Definition is_handle (a : action) : bool :=
  match a with
  | Handle _ _ => true
  | _ => false
  end.

Definition is_set_renderer (a : action) : bool :=
  match a with
  | SetRenderer _ => true
  | _ => false
  end.

Definition tampers (a : action) : bool :=
  match a with
  | Tamper _ => true
  | _ => false
  end.

(** The actions during which the handlers object is within reach of
    caller code, or is assigned to by [handle]. *)
Definition reaches_handlers (a : action) : bool :=
  match a with
  | Handle _ _ | WatcherFailed _ _ | ReadDone _ _ | Tamper _ => true
  | _ => false
  end.

(** The actions whose code assigns [this.#content] (lines 32, 126, 138). *)
Definition writes_content (a : action) : bool :=
  match a with
  | SetContent _ | ReadDone _ _ | Destroy => true
  | _ => false
  end.

(** The next [changes] evaluations of [Date.now()] return readings that
    do not exceed [last_update] by more than [watcher_delay]. *)
Definition window_closed (H : Host N) (s : Sys N) (changes : nat) : Prop :=
  forall n : nat,
    ticks (world s) <= n < ticks (world s) + changes ->
    exceeds N (minus N (clock H n) (last_update (this s)))
            (watcher_delay (this s)) = false.

(** What an action makes of the instance, the handlers object apart. *)
Definition instance_after (H : Host N) (a : action) (s : Sys N) : LiveFile N :=
  match a with
  | SetContent c => with_content c (this s)
  | SetRenderer (VFunction f) => with_renderer (VFunction f) (this s)
  | DelayCheck _ | Changed _ =>
      if checks_gate a && gate_opens H s
      then with_last_update (clock H (S (ticks (world s)))) (this s)
      else this s
  | InitWatcher =>
      match watch_throws H (trace (world s)) (path (this s)) with
      | None => with_watcher (Some (length (fs_watchers (world s)))) (this s)
      | Some _ => this s
      end
  | Destroy =>
      match watcher (this s) with
      | Some _ => with_content (VString "") (this s)
      | None => this s
      end
  | ReadDone error data =>
      if to_boolean error then this s else with_content data (this s)
  | _ => this s
  end.

End Vocabulary.

(* ------------------------------------------------------------------ *)
(** ** Properties *)

(** Unfolding the monad on a given state. *)
Ltac run_monad :=
  cbv [bind ret throw lift gets update effect Date_now FileSystem_watch
       FileSystem_readFile watcher_close] in *; simpl in *.

(** Splitting on whatever a [match] in the goal scrutinises. *)
Ltac by_cases :=
  repeat first
    [ reflexivity
    | match goal with
      | |- context [match ?x with _ => _ end] => destruct x; simpl
      end ].

(** *** Records and relations *)

Section Basics.

Context {N : Numbers}.

Lemma with_handlers_same (o : LiveFile N) : with_handlers (handlers o) o = o.
Proof. now destruct o. Qed.

Lemma set_prototype_own (o o' : object) (v : value) :
  set_prototype o v = Normal o' -> own o' = own o.
Proof.
  unfold set_prototype.
  destruct v; try (intros [= <-]; reflexivity);
    destruct (extensible o || bool_decide _); try discriminate;
    intros [= <-]; reflexivity.
Qed.

Lemma rebound_refl (o : LiveFile N) : rebound o o.
Proof. exists (handlers o). symmetry. apply with_handlers_same. Qed.

Lemma rebound_trans (o1 o2 o3 : LiveFile N) :
  rebound o1 o2 -> rebound o2 o3 -> rebound o1 o3.
Proof. intros [h1 ->] [h2 ->]. now exists h2. Qed.

Lemma rebound_with_handlers (o : LiveFile N) (hs : object) :
  rebound o (with_handlers hs o).
Proof. now exists hs. Qed.

Lemma called_refl (w : World) (n : nat) : called w w n.
Proof.
  repeat split. exists []. rewrite app_nil_r. repeat split. simpl. lia.
Qed.

Lemma called_trans (w1 w2 w3 : World) (n m : nat) :
  called w1 w2 n -> called w2 w3 m -> called w1 w3 (n + m).
Proof.
  intros (Ht1 & Hw1 & Hp1 & l1 & Hl1 & Hi1 & Hn1)
         (Ht2 & Hw2 & Hp2 & l2 & Hl2 & Hi2 & Hn2).
  repeat split; try congruence.
  exists (l1 ++ l2)%list. rewrite Hl2, Hl1, <- app_assoc.
  split; [reflexivity |]. split.
  - now rewrite forallb_app, Hi1, Hi2.
  - rewrite length_app. lia.
Qed.

Lemma called_le (w w' : World) (n m : nat) :
  n <= m -> called w w' n -> called w w' m.
Proof.
  intros Hle (Ht & Hw & Hp & l & Hl & Hi & Hn).
  repeat split; try assumption. exists l. repeat split; try assumption. lia.
Qed.

Lemma called_emit (f : function) (args : list value) (w : World) :
  called w (emit (Invoke f args) w) 1.
Proof. repeat split. exists [Invoke f args]. repeat split. simpl. lia. Qed.

Lemma called_invoked (f : function) (args : list value) (w : World) :
  called w (invoked f args w) 1.
Proof.
  unfold invoked. destruct (is_default f); [apply called_emit |].
  repeat split. exists [Invoke f args]. repeat split. simpl. lia.
Qed.

Lemma calls_app (s s' : Sys N) (suffix : list event) :
  trace (world s') = (trace (world s) ++ suffix)%list ->
  calls s' = (calls s ++ List.filter is_invoke suffix)%list.
Proof. intros Htrace. unfold calls. now rewrite Htrace, List.filter_app. Qed.

Lemma filter_all (l : list event) :
  forallb is_invoke l = true -> List.filter is_invoke l = l.
Proof.
  induction l as [| e l IH]; simpl; [reflexivity |].
  intros Hall. apply andb_true_iff in Hall as [He Hl].
  rewrite He. now rewrite IH.
Qed.

Lemma called_calls (s s' : Sys N) (n : nat) :
  called (world s) (world s') n ->
  exists suffix, calls s' = (calls s ++ suffix)%list /\ length suffix <= n.
Proof.
  intros (_ & _ & _ & l & Hl & Hi & Hn). exists l.
  rewrite (calls_app s s' l Hl), (filter_all l Hi). now split.
Qed.

End Basics.

(** *** Calls *)

Section Calls.

Context {N : Numbers} (H : Host N).

(** A call of the renderer changes the trace, never the instance. *)
Lemma call_keeps_instance (callee : value) (args : list value) (s : Sys N) :
  this (snd (call H callee args s)) = this s.
Proof. destruct callee; reflexivity. Qed.

Lemma call_called (callee : value) (args : list value) (s : Sys N) :
  called (world s) (world (snd (call H callee args s))) 1.
Proof. destruct callee; simpl; try apply called_refl. apply called_emit. Qed.

(** A call on the handlers object leaves the instance with the object as
    the function left it. *)
Lemma call_method_function (f : function) (args : list value) (s : Sys N) :
  call_method H (VFunction f) args s =
    (fst (completes_method H f (handlers (this s)) args),
     {| this := with_handlers (snd (completes_method H f (handlers (this s)) args))
                  (this s);
        world := invoked f args (world s) |}).
Proof.
  unfold call_method, completes_method, invoked. run_monad.
  destruct (is_default f); simpl; [| reflexivity].
  now rewrite with_handlers_same.
Qed.

Lemma call_method_not_function (callee : value) (args : list value) (s : Sys N) :
  typeof callee <> "function" ->
  call_method H callee args s = (Throw TypeError, s).
Proof. destruct callee; try reflexivity. intros Hf. now destruct Hf. Qed.

Lemma call_method_effect (callee : value) (args : list value) (s : Sys N) :
  rebound (this s) (this (snd (call_method H callee args s)))
  /\ called (world s) (world (snd (call_method H callee args s))) 1.
Proof.
  destruct callee;
    try (split; [apply rebound_refl | apply called_refl]).
  rewrite call_method_function. simpl.
  split; [apply rebound_with_handlers | apply called_invoked].
Qed.

Lemma call_method_keeps_receiver (callee : value) (args : list value) (s : Sys N) :
  methods_keep_receiver H ->
  this (snd (call_method H callee args s)) = this s.
Proof.
  intros Hkeep. destruct callee; try reflexivity.
  rewrite call_method_function. simpl. unfold completes_method.
  destruct (is_default f); simpl; [| rewrite Hkeep]; apply with_handlers_same.
Qed.

(** *** Property access *)

Lemma own_find (o : object) (key : string) (v : value) :
  own o !! key = Some v -> find_property H o key = DataProperty v true.
Proof. intros Hv. unfold find_property, own_property. now rewrite Hv. Qed.

Lemma get_own (key : string) (v : value) (s : Sys N) :
  own (handlers (this s)) !! key = Some v ->
  get_property H key s = (Normal v, s).
Proof.
  intros Hv. unfold get_property. run_monad.
  now rewrite (own_find _ _ _ Hv).
Qed.

Lemma get_property_effect (key : string) (s : Sys N) :
  rebound (this s) (this (snd (get_property H key s)))
  /\ called (world s) (world (snd (get_property H key s))) 1.
Proof.
  unfold get_property. run_monad.
  destruct (find_property H (handlers (this s)) key) as [| v wr | | [g |] st];
    simpl; try (split; [apply rebound_refl | apply called_refl]).
  apply call_method_effect.
Qed.

Lemma get_property_keeps_receiver (key : string) (s : Sys N) :
  methods_keep_receiver H ->
  this (snd (get_property H key s)) = this s.
Proof.
  intros Hkeep. unfold get_property. run_monad.
  destruct (find_property H (handlers (this s)) key) as [| v wr | | [g |] st];
    simpl; try reflexivity.
  now apply call_method_keeps_receiver.
Qed.

(** Without accessors a lookup runs no code. *)
Lemma get_property_plain (key : string) (s : Sys N) :
  accessor_free H (handlers (this s)) ->
  snd (get_property H key s) = s.
Proof.
  intros Hfree. specialize (Hfree key). unfold get_property. run_monad.
  destruct (find_property H (handlers (this s)) key); simpl;
    reflexivity || contradiction.
Qed.

Lemma set_own (key : string) (v current : value) (s : Sys N) :
  own (handlers (this s)) !! key = Some current ->
  set_property H key v s =
    (Normal tt,
     {| this := with_handlers
                  (with_own (<[key := v]> (own (handlers (this s))))
                            (handlers (this s)))
                  (this s);
        world := world s |}).
Proof.
  intros Hown. unfold set_property, own_property. run_monad. now rewrite Hown.
Qed.

Lemma set_property_effect (key : string) (v : value) (s : Sys N) :
  rebound (this s) (this (snd (set_property H key v s)))
  /\ called (world s) (world (snd (set_property H key v s))) 1.
Proof.
  set (P := fun r : completion unit * Sys N =>
              rebound (this s) (this (snd r))
              /\ called (world s) (world (snd r)) 1).
  assert (Hsame : forall c, P (c, s))
    by (intros c; split; [apply rebound_refl | apply called_refl]).
  assert (Hstore : forall c hs,
            P (c, {| this := with_handlers hs (this s); world := world s |}))
    by (intros c hs; split; [apply rebound_with_handlers | apply called_refl]).
  assert (Hsetter : forall f,
            P ((let* _ := call_method H (VFunction f) [v] in ret tt) s)).
  { intros f. unfold bind, P.
    pose proof (call_method_effect (VFunction f) [v] s) as Heffect.
    destruct (call_method H (VFunction f) [v] s) as [[u | e] s']; exact Heffect. }
  assert (Hreparent :
            P ((let* hs' := lift (set_prototype (handlers (this s)) v) in
                update (with_handlers hs')) s)).
  { unfold bind, lift, update.
    destruct (set_prototype (handlers (this s)) v); simpl; auto. }
  change (P (set_property H key v s)).
  unfold set_property. unfold bind at 1, gets at 1. cbn beta iota.
  destruct (own_property (handlers (this s)) key)
    as [| u [|] | | g [f |]]; auto; try apply Hstore; try apply Hsame.
  destruct (inherited H (handlers (this s)) key)
    as [| u [|] | | g [f |]]; auto; try apply Hsame;
    destruct (extensible (handlers (this s))); auto;
    try apply Hstore; try apply Hsame.
Qed.

End Calls.

(** *** The methods, one equation each *)

Section Methods.

Context {N : Numbers} (H : Host N).

Lemma delay_check_eq (touch : value) (s : Sys N) :
  _delay_check H touch s =
    (Normal (gate_opens H s),
     if gate_opens H s && touching touch
     then {| this := with_last_update (clock H (S (ticks (world s)))) (this s);
             world := tick (tick (world s)) |}
     else {| this := this s; world := tick (world s) |}).
Proof.
  unfold _delay_check, touching. run_monad. fold (gate_opens H s).
  destruct (gate_opens H s), (to_boolean _); reflexivity.
Qed.

Lemma watch_listener_eq (s : Sys N) :
  watch_listener H s =
    (Normal tt,
     if gate_opens H s
     then {| this := with_last_update (clock H (S (ticks (world s)))) (this s);
             world := read_queued (path (this s)) (tick (tick (world s))) |}
     else {| this := this s; world := tick (world s) |}).
Proof.
  unfold watch_listener, bind. rewrite delay_check_eq.
  unfold touching. simpl. rewrite andb_true_r.
  destruct (gate_opens H s); reflexivity.
Qed.

Lemma init_watcher_eq (s : Sys N) :
  _init_watcher H s =
    match watch_throws H (trace (world s)) (path (this s)) with
    | Some e =>
        (Throw e,
         {| this := this s;
            world := emit (FsWatchThrew (path (this s))) (world s) |})
    | None =>
        let id := length (fs_watchers (world s)) in
        (Normal tt,
         {| this := with_watcher (Some id) (this s);
            world := emit (WatcherOnError id)
                       (emit (FsWatch (path (this s)) id)
                          (watcher_opened (world s))) |})
    end.
Proof.
  unfold _init_watcher. run_monad.
  destruct (watch_throws H (trace (world s)) (path (this s))); reflexivity.
Qed.

Lemma destroy_eq (s : Sys N) :
  _destroy s =
    match watcher (this s) with
    | None => (Throw TypeError, s)
    | Some id =>
        (Normal tt,
         {| this := with_content (VString "") (this s);
            world := emit (WatcherClose id) (watcher_closed id (world s)) |})
    end.
Proof. unfold _destroy. run_monad. by_cases. Qed.

Lemma handle_eq (type : string) (handler : value) (s : Sys N) :
  handle H type handler s =
    match get_property H type s with
    | (Normal current, s') =>
        if loose_eq_undefined current then (Throw (unsupported type), s')
        else set_property H type handler s'
    | (Throw e, s') => (Throw e, s')
    end.
Proof.
  unfold handle, bind, throw, unsupported.
  destruct (get_property H type s) as [[current | e] s']; [| reflexivity].
  now destruct (loose_eq_undefined current).
Qed.

(** A slot that holds [undefined] or [null] rejects every registration. *)
Lemma handle_disabled (kind : string) (v handler : value) (s : Sys N) :
  own (handlers (this s)) !! kind = Some v ->
  loose_eq_undefined v = true ->
  handle H kind handler s = (Throw (unsupported kind), s).
Proof.
  intros Hown Hnull. rewrite handle_eq, (get_own H _ _ _ Hown).
  now rewrite Hnull.
Qed.

(** A slot that holds anything else takes whatever it is given. *)
Lemma handle_replaces (kind : string) (current handler : value) (s : Sys N) :
  own (handlers (this s)) !! kind = Some current ->
  loose_eq_undefined current = false ->
  handle H kind handler s =
    (Normal tt,
     {| this := with_handlers
                  (with_own (<[kind := handler]> (own (handlers (this s))))
                            (handlers (this s)))
                  (this s);
        world := world s |}).
Proof.
  intros Hown Hnull. rewrite handle_eq, (get_own H _ _ _ Hown), Hnull.
  now rewrite (set_own H _ _ _ _ Hown).
Qed.

Lemma handle_then_own (kind : string) (current handler : value) (s : Sys N) :
  own (handlers (this s)) !! kind = Some current ->
  loose_eq_undefined current = false ->
  let s' := snd (handle H kind handler s) in
  own (handlers (this s')) !! kind = Some handler
  /\ content (this s') = content (this s)
  /\ world s' = world s.
Proof.
  intros Hown Hnull s'. subst s'.
  rewrite (handle_replaces kind current handler s Hown Hnull). simpl.
  split; [apply lookup_insert_eq | split; reflexivity].
Qed.

Lemma handle_effect (type : string) (handler : value) (s : Sys N) :
  rebound (this s) (this (snd (handle H type handler s)))
  /\ called (world s) (world (snd (handle H type handler s))) 2.
Proof.
  rewrite handle_eq.
  destruct (get_property_effect H type s) as [Hthis Hworld].
  destruct (get_property H type s) as [[current | e] s1]; simpl in *.
  - destruct (loose_eq_undefined current); simpl.
    + split; [assumption | now apply (called_le _ _ 1 2); [lia |]].
    + destruct (set_property_effect H type handler s1) as [Hthis' Hworld'].
      split; [now apply (rebound_trans _ (this s1)) |].
      exact (called_trans _ _ _ 1 1 Hworld Hworld').
  - split; [assumption | now apply (called_le _ _ 1 2); [lia |]].
Qed.

(** The two callbacks that dispatch to a handler. *)
Lemma dispatch_effect (key : string) (args : list value) (s : Sys N) :
  rebound (this s)
    (this (snd ((let* h := get_property H key in call_method H h args) s)))
  /\ called (world s)
    (world (snd ((let* h := get_property H key in call_method H h args) s))) 2.
Proof.
  unfold bind.
  destruct (get_property_effect H key s) as [Hthis Hworld].
  destruct (get_property H key s) as [[h | e] s1]; simpl in *.
  - destruct (call_method_effect H h args s1) as [Hthis' Hworld'].
    split; [now apply (rebound_trans _ (this s1)) |].
    exact (called_trans _ _ _ 1 1 Hworld Hworld').
  - split; [assumption | now apply (called_le _ _ 1 2); [lia |]].
Qed.

Lemma watcher_error_listener_effect (error : value) (s : Sys N) :
  rebound (this s) (this (snd (watcher_error_listener H error s)))
  /\ called (world s) (world (snd (watcher_error_listener H error s))) 2.
Proof. apply dispatch_effect. Qed.

Lemma readFile_callback_effect (error data : value) (s : Sys N) :
  rebound (if to_boolean error then this s else with_content data (this s))
          (this (snd (readFile_callback H error data s)))
  /\ called (world s) (world (snd (readFile_callback H error data s))) 2.
Proof.
  unfold readFile_callback. destruct (to_boolean error).
  - apply dispatch_effect.
  - pose proof (dispatch_effect "reload" [data]
                  {| this := with_content data (this s); world := world s |})
      as Hdispatch.
    unfold bind, update in *. cbn [this world] in Hdispatch.
    destruct (get_property H "reload" _) as [[h | e] s1]; [| exact Hdispatch].
    destruct (call_method H h [data] s1) as [[u | e] s2]; exact Hdispatch.
Qed.

End Methods.

(** *** Histories *)

Section Histories.

Context {N : Numbers} (H : Host N).

(** What each action does to the instance. *)
Lemma perform_instance_exact (a : action) (s : Sys N) :
  reaches_handlers a = false ->
  this (perform H a s) = instance_after H a s.
Proof.
  destruct a; simpl; try reflexivity; try discriminate.
  - destruct r; reflexivity.
  - intros _. unfold render. run_monad. apply call_keeps_instance.
  - intros _. rewrite delay_check_eq, andb_comm. by_cases.
  - intros _. rewrite init_watcher_eq. by_cases.
  - intros _. rewrite destroy_eq. by_cases.
  - intros _. rewrite watch_listener_eq. by_cases.
Qed.

Lemma perform_instance (a : action) (s : Sys N) :
  rebound (instance_after H a s) (this (perform H a s)).
Proof.
  destruct (reaches_handlers a) eqn:Hreach.
  - destruct a; try discriminate Hreach; cbn [perform instance_after].
    + apply handle_effect.
    + apply watcher_error_listener_effect.
    + match goal with
      | |- context [readFile_callback H ?e ?c _] =>
          exact (proj1 (readFile_callback_effect H e c (dequeue_read s)))
      end.
    + apply rebound_with_handlers.
  - rewrite (perform_instance_exact a s Hreach). apply rebound_refl.
Qed.

Lemma perform_path (a : action) (s : Sys N) :
  path (this (perform H a s)) = path (this s).
Proof.
  destruct (perform_instance a s) as [hs ->].
  destruct a; simpl; by_cases.
Qed.

(** Nothing writes [watcher_delay]. *)
Lemma perform_watcher_delay (a : action) (s : Sys N) :
  watcher_delay (this (perform H a s)) = watcher_delay (this s).
Proof.
  destruct (perform_instance a s) as [hs ->].
  destruct a; simpl; by_cases.
Qed.

Lemma run_watcher_delay (history : list action) (s : Sys N) :
  watcher_delay (this (run H history s)) = watcher_delay (this s).
Proof.
  revert s. induction history as [| a rest IH]; intros s; [reflexivity |].
  simpl. rewrite IH. destruct (enabled a s); [apply perform_watcher_delay | reflexivity].
Qed.

Lemma run_path (history : list action) (s : Sys N) :
  path (this (run H history s)) = path (this s).
Proof.
  revert s. induction history as [| a rest IH]; intros s; [reflexivity |].
  simpl. rewrite IH. destruct (enabled a s); [apply perform_path | reflexivity].
Qed.

(** Only the check of the gate writes [last_update]. *)
Lemma perform_last_update (a : action) (s : Sys N) :
  last_update (this (perform H a s)) =
    if checks_gate a && gate_opens H s
    then clock H (S (ticks (world s)))
    else last_update (this s).
Proof.
  destruct (perform_instance a s) as [hs ->].
  destruct a; simpl; by_cases.
Qed.

(** Who writes the content. *)
Lemma perform_content (a : action) (s : Sys N) :
  content (this (perform H a s)) =
    match a with
    | SetContent c => c
    | ReadDone error c => if to_boolean error then content (this s) else c
    | Destroy =>
        match watcher (this s) with
        | Some _ => VString ""
        | None => content (this s)
        end
    | _ => content (this s)
    end.
Proof.
  destruct (perform_instance a s) as [hs ->].
  destruct a; simpl; by_cases.
Qed.

Lemma run_keeps_content (history : list action) (s : Sys N) :
  Forall (fun a => writes_content a = false) history ->
  content (this (run H history s)) = content (this s).
Proof.
  revert s.
  induction history as [| b rest IH]; intros s Hquiet; [reflexivity |].
  apply Forall_cons in Hquiet as [Hb Hrest]. cbn [run].
  rewrite (IH _ Hrest). destruct (enabled b s); [| reflexivity].
  rewrite perform_content. destruct b; try reflexivity; discriminate Hb.
Qed.

Lemma perform_renderer (a : action) (s : Sys N) :
  is_set_renderer a = false ->
  renderer (this (perform H a s)) = renderer (this s).
Proof.
  intros Ha. destruct (perform_instance a s) as [hs ->].
  destruct a; simpl; try discriminate Ha; by_cases.
Qed.

Lemma perform_watcher (a : action) (s : Sys N) :
  watcher (this (perform H a s)) =
    match a with
    | InitWatcher =>
        match watch_throws H (trace (world s)) (path (this s)) with
        | None => Some (length (fs_watchers (world s)))
        | Some _ => watcher (this s)
        end
    | _ => watcher (this s)
    end.
Proof.
  destruct (perform_instance a s) as [hs ->].
  destruct a; simpl; try solve [by_cases].
  destruct (watcher (this s)) eqn:Hheld; simpl; assumption.
Qed.

(** The handlers object is out of reach of every other action. *)
Lemma perform_handlers (a : action) (s : Sys N) :
  reaches_handlers a = false ->
  handlers (this (perform H a s)) = handlers (this s).
Proof.
  intros Ha. rewrite (perform_instance_exact a s Ha).
  destruct a; simpl; by_cases.
Qed.

(** *** When the caller's functions leave the handlers object alone *)

Lemma dispatch_keeps_receiver (key : string) (args : list value) (s : Sys N) :
  methods_keep_receiver H ->
  this (snd ((let* h := get_property H key in call_method H h args) s)) = this s.
Proof.
  intros Hkeep. unfold bind.
  pose proof (get_property_keeps_receiver H key s Hkeep) as Hget.
  destruct (get_property H key s) as [[h | e] s1]; simpl in *; [| exact Hget].
  now rewrite (call_method_keeps_receiver H h args s1 Hkeep).
Qed.

Lemma readFile_callback_keeps_receiver (error data : value) (s : Sys N) :
  methods_keep_receiver H ->
  this (snd (readFile_callback H error data s)) =
    (if to_boolean error then this s else with_content data (this s)).
Proof.
  intros Hkeep. unfold readFile_callback. destruct (to_boolean error).
  - now apply dispatch_keeps_receiver.
  - pose proof (dispatch_keeps_receiver "reload" [data]
                  {| this := with_content data (this s); world := world s |} Hkeep)
      as Hdispatch.
    unfold bind, update in *. cbn [this world] in Hdispatch.
    destruct (get_property H "reload" _) as [[h | e] s1]; [| exact Hdispatch].
    destruct (call_method H h [data] s1) as [[u | e] s2]; exact Hdispatch.
Qed.

Lemma perform_handlers_kept (a : action) (s : Sys N) :
  methods_keep_receiver H ->
  is_handle a = false -> tampers a = false ->
  handlers (this (perform H a s)) = handlers (this s).
Proof.
  intros Hkeep Hhandle Htamper.
  destruct (reaches_handlers a) eqn:Hreach; [| now apply perform_handlers].
  destruct a; try discriminate; cbn [perform].
  - unfold watcher_error_listener. now rewrite dispatch_keeps_receiver.
  - rewrite readFile_callback_keeps_receiver by assumption.
    now destruct (to_boolean error).
Qed.

(** An assignment under one key leaves the own value under any other. *)
Lemma set_property_other_key (key k : string) (v : value) (s : Sys N) :
  methods_keep_receiver H ->
  k <> key ->
  own (handlers (this (snd (set_property H key v s)))) !! k
  = own (handlers (this s)) !! k.
Proof.
  intros Hkeep Hne.
  set (P := fun r : completion unit * Sys N =>
              own (handlers (this (snd r))) !! k = own (handlers (this s)) !! k).
  assert (Hsame : forall c, P (c, s)) by reflexivity.
  assert (Hstore : forall c,
            P (c, {| this := with_handlers
                               (with_own (<[key := v]> (own (handlers (this s))))
                                         (handlers (this s)))
                               (this s);
                     world := world s |})).
  { intros c. unfold P. simpl. now apply lookup_insert_ne. }
  assert (Hsetter : forall f,
            P ((let* _ := call_method H (VFunction f) [v] in ret tt) s)).
  { intros f. unfold bind, P.
    pose proof (call_method_keeps_receiver H (VFunction f) [v] s Hkeep) as Hcall.
    destruct (call_method H (VFunction f) [v] s) as [[u | e] s']; simpl in *;
      now rewrite Hcall. }
  assert (Hreparent :
            P ((let* hs' := lift (set_prototype (handlers (this s)) v) in
                update (with_handlers hs')) s)).
  { unfold bind, lift, update, P.
    destruct (set_prototype (handlers (this s)) v) as [o' | e] eqn:Hset;
      simpl; [| reflexivity].
    now rewrite (set_prototype_own _ _ _ Hset). }
  change (P (set_property H key v s)).
  unfold set_property. unfold bind at 1, gets at 1. cbn beta iota.
  destruct (own_property (handlers (this s)) key)
    as [| u [|] | | g [f |]]; auto; try apply Hstore; try apply Hsame.
  destruct (inherited H (handlers (this s)) key)
    as [| u [|] | | g [f |]]; auto; try apply Hsame;
    destruct (extensible (handlers (this s))); auto;
    try apply Hstore; try apply Hsame.
Qed.

(** Own keys are never removed. *)
Lemma set_property_keeps_keys (key k : string) (v : value) (s : Sys N) :
  methods_keep_receiver H ->
  is_Some (own (handlers (this s)) !! k) ->
  is_Some (own (handlers (this (snd (set_property H key v s)))) !! k).
Proof.
  intros Hkeep Hk. destruct (decide (k = key)) as [-> | Hne].
  - destruct Hk as [current Hcurrent].
    rewrite (set_own H key v current s Hcurrent). simpl.
    rewrite lookup_insert_eq. eauto.
  - now rewrite set_property_other_key.
Qed.

Lemma handle_other_key (type k : string) (handler : value) (s : Sys N) :
  methods_keep_receiver H ->
  k <> type ->
  own (handlers (this (snd (handle H type handler s)))) !! k
  = own (handlers (this s)) !! k.
Proof.
  intros Hkeep Hne. rewrite handle_eq.
  pose proof (get_property_keeps_receiver H type s Hkeep) as Hget.
  destruct (get_property H type s) as [[current | e] s1]; simpl in *;
    [| now rewrite Hget].
  destruct (loose_eq_undefined current); simpl; [now rewrite Hget |].
  rewrite set_property_other_key by assumption. now rewrite Hget.
Qed.

Lemma handle_keeps_keys (type k : string) (handler : value) (s : Sys N) :
  methods_keep_receiver H ->
  is_Some (own (handlers (this s)) !! k) ->
  is_Some (own (handlers (this (snd (handle H type handler s)))) !! k).
Proof.
  intros Hkeep Hk. rewrite handle_eq.
  pose proof (get_property_keeps_receiver H type s Hkeep) as Hget.
  destruct (get_property H type s) as [[current | e] s1]; simpl in *;
    [| now rewrite Hget].
  destruct (loose_eq_undefined current); simpl; [now rewrite Hget |].
  apply set_property_keeps_keys; [assumption | now rewrite Hget].
Qed.

(** A slot that holds [undefined] or [null] keeps it. *)
Lemma perform_keeps_slot (a : action) (s : Sys N) (kind : string) (v : value) :
  methods_keep_receiver H ->
  tampers a = false ->
  own (handlers (this s)) !! kind = Some v ->
  loose_eq_undefined v = true ->
  own (handlers (this (perform H a s))) !! kind = Some v.
Proof.
  intros Hkeep Htamper Hown Hnull.
  destruct (is_handle a) eqn:Hhandle.
  - destruct a; try discriminate. cbn [perform].
    destruct (decide (type = kind)) as [-> | Hne].
    + now rewrite (handle_disabled H kind v handler s Hown Hnull).
    + rewrite handle_other_key by (assumption || congruence). assumption.
  - now rewrite perform_handlers_kept.
Qed.

Lemma run_keeps_slot (history : list action) (s : Sys N) (kind : string) (v : value) :
  methods_keep_receiver H ->
  Forall (fun a => tampers a = false) history ->
  own (handlers (this s)) !! kind = Some v ->
  loose_eq_undefined v = true ->
  own (handlers (this (run H history s))) !! kind = Some v.
Proof.
  intros Hkeep. revert s.
  induction history as [| a rest IH]; intros s Hquiet Hown Hnull; [assumption |].
  apply Forall_cons in Hquiet as [Ha Hrest].
  simpl. apply IH; [assumption | | assumption].
  destruct (enabled a s); [now apply perform_keeps_slot | assumption].
Qed.

Lemma perform_keeps_keys (a : action) (s : Sys N) (k : string) :
  methods_keep_receiver H ->
  tampers a = false ->
  is_Some (own (handlers (this s)) !! k) ->
  is_Some (own (handlers (this (perform H a s))) !! k).
Proof.
  intros Hkeep Htamper Hk.
  destruct (is_handle a) eqn:Hhandle.
  - destruct a; try discriminate. cbn [perform]. now apply handle_keeps_keys.
  - now rewrite perform_handlers_kept.
Qed.

Lemma run_keeps_keys (history : list action) (s : Sys N) (k : string) :
  methods_keep_receiver H ->
  Forall (fun a => tampers a = false) history ->
  is_Some (own (handlers (this s)) !! k) ->
  is_Some (own (handlers (this (run H history s))) !! k).
Proof.
  intros Hkeep. revert s.
  induction history as [| a rest IH]; intros s Hquiet Hk; [assumption |].
  apply Forall_cons in Hquiet as [Ha Hrest].
  simpl. apply IH; [assumption |].
  destruct (enabled a s); [now apply perform_keeps_keys | assumption].
Qed.

End Histories.

(** *** The runtime along a history *)

Section Runtime.

Context {N : Numbers} (H : Host N).

(** Only [_init_watcher] and [_destroy] touch the watchers: one starts a
    new one, the other stops the one the instance holds. *)
Lemma perform_watchers (a : action) (s : Sys N) :
  fs_watchers (world (perform H a s)) =
    match a with
    | InitWatcher =>
        match watch_throws H (trace (world s)) (path (this s)) with
        | None => (fs_watchers (world s) ++ [true])%list
        | Some _ => fs_watchers (world s)
        end
    | Destroy =>
        match watcher (this s) with
        | Some id => <[id := false]> (fs_watchers (world s))
        | None => fs_watchers (world s)
        end
    | _ => fs_watchers (world s)
    end.
Proof.
  destruct a; cbn [perform]; try reflexivity.
  - unfold set_renderer. by_cases.
  - unfold render. run_monad. apply call_called.
  - apply handle_effect.
  - rewrite delay_check_eq. by_cases.
  - rewrite init_watcher_eq. by_cases.
  - rewrite destroy_eq. by_cases.
  - rewrite watch_listener_eq. by_cases.
  - apply watcher_error_listener_effect.
  - match goal with
    | |- context [readFile_callback H ?e ?c _] =>
        exact (proj1 (proj2 (proj2 (readFile_callback_effect H e c (dequeue_read s)))))
    end.
Qed.


Lemma perform_keeps_watcher_valid (a : action) (s : Sys N) :
  watcher_valid s -> watcher_valid (perform H a s).
Proof.
  unfold watcher_valid. intros Hvalid id.
  rewrite perform_watchers, perform_watcher.
  destruct a; try exact (Hvalid id).
  - destruct (watch_throws H _ _); [exact (Hvalid id) |].
    intros [= <-]. rewrite length_app. simpl. lia.
  - destruct (watcher (this s)) as [j |] eqn:Hj; intros Hid.
    + rewrite length_insert. apply Hvalid. congruence.
    + congruence.
Qed.

Lemma perform_keeps_watcher (a : action) (s : Sys N) :
  is_Some (watcher (this s)) -> is_Some (watcher (this (perform H a s))).
Proof.
  intros Hw. rewrite perform_watcher.
  destruct a; try assumption.
  destruct (watch_throws H _ _); [assumption | eauto].
Qed.

Lemma constructed_well_formed
    (p : string) (delay : number N) (r : value) (w : World) :
  fst (constructor H p delay r w) = Normal tt ->
  well_formed (snd (constructor H p delay r w)).
Proof.
  unfold constructor, bind. rewrite init_watcher_eq. cbn [this world path trace tick].
  destruct (watch_throws H (trace w) p); [discriminate |]. intros _.
  split; [| simpl; eauto].
  intros id [= <-]. simpl. rewrite length_app. simpl. lia.
Qed.

Lemma perform_keeps_well_formed (a : action) (s : Sys N) :
  well_formed s -> well_formed (perform H a s).
Proof.
  intros (Hvalid & Hwatcher).
  split; [now apply perform_keeps_watcher_valid | now apply perform_keeps_watcher].
Qed.

Lemma run_keeps_well_formed (history : list action) (s : Sys N) :
  well_formed s -> well_formed (run H history s).
Proof.
  revert s. induction history as [| a rest IH]; intros s Hs; [exact Hs |].
  simpl. apply IH.
  destruct (enabled a s); [now apply perform_keeps_well_formed | exact Hs].
Qed.

(** The handlers object is handed out by a call on it and by nothing
    else. *)
Lemma perform_keeps_hidden (a : action) (s : Sys N) :
  reaches_handlers a = false ->
  exposed (world (perform H a s)) = exposed (world s).
Proof.
  destruct a; cbn [perform reaches_handlers]; try discriminate; intros _;
    try reflexivity.
  - unfold set_renderer. by_cases.
  - unfold render. run_monad. now destruct (renderer (this s)).
  - rewrite delay_check_eq. by_cases.
  - rewrite init_watcher_eq. by_cases.
  - rewrite destroy_eq. by_cases.
  - rewrite watch_listener_eq. by_cases.
Qed.

Lemma run_hidden (history : list action) (s : Sys N) :
  exposed (world s) = false ->
  Forall (fun a => reaches_handlers a && negb (tampers a) = false) history ->
  handlers (this (run H history s)) = handlers (this s)
  /\ exposed (world (run H history s)) = false.
Proof.
  revert s.
  induction history as [| a rest IH]; intros s Hhidden Hquiet; [now split |].
  apply Forall_cons in Hquiet as [Ha Hrest]. cbn [run].
  destruct (tampers a) eqn:Htamper.
  - destruct a; try discriminate Htamper. cbn [enabled]. rewrite Hhidden.
    now apply IH.
  - rewrite andb_true_r in Ha. destruct (enabled a s); [| now apply IH].
    destruct (IH (perform H a s)) as [Hhandlers Hexposed];
      [now rewrite perform_keeps_hidden | assumption |].
    split; [| exact Hexposed].
    rewrite Hhandlers. now apply perform_handlers.
Qed.

(** *** Calls of caller code, per action *)

Lemma calls_unchanged (s s' : Sys N) (n : nat) :
  calls s' = calls s ->
  exists suffix, calls s' = (calls s ++ suffix)%list /\ length suffix <= n.
Proof. intros ->. exists []. split; [now rewrite app_nil_r | simpl; lia]. Qed.

Lemma calls_emit (e : event) (s s' : Sys N) :
  is_invoke e = false ->
  trace (world s') = (trace (world s) ++ [e])%list ->
  calls s' = calls s.
Proof.
  intros He Htrace. rewrite (calls_app s s' [e] Htrace). simpl.
  rewrite He. apply app_nil_r.
Qed.

(** The actions that contain no call. *)
Lemma perform_calls_quiet (a : action) (s : Sys N) :
  calls_out a = 0 -> calls (perform H a s) = calls s.
Proof.
  destruct a; cbn [perform calls_out]; try discriminate; intros _;
    try reflexivity.
  - unfold set_renderer. by_cases.
  - rewrite delay_check_eq. by_cases.
  - rewrite init_watcher_eq. destruct (watch_throws H _ _); cbn [snd].
    + now apply (calls_emit (FsWatchThrew (path (this s)))).
    + unfold calls. simpl. rewrite !List.filter_app. simpl.
      now rewrite !app_nil_r.
  - now apply (calls_emit (FsReadFile (path (this s)))).
  - rewrite destroy_eq. destruct (watcher (this s)) as [id |]; cbn [snd];
      [| reflexivity].
    now apply (calls_emit (WatcherClose id)).
  - rewrite watch_listener_eq. destruct (gate_opens H s); cbn [snd];
      [| reflexivity].
    now apply (calls_emit (FsReadFile (path (this s)))).
Qed.

Lemma perform_calls (a : action) (s : Sys N) :
  exists suffix : list event,
    calls (perform H a s) = (calls s ++ suffix)%list
    /\ length suffix <= calls_out a.
Proof.
  destruct (calls_out a) eqn:Hout.
  - apply calls_unchanged. now apply perform_calls_quiet.
  - rewrite <- Hout.
    destruct a; try discriminate Hout; cbn [perform calls_out].
    + apply called_calls. unfold render. run_monad. apply call_called.
    + apply called_calls. apply handle_effect.
    + apply called_calls. apply watcher_error_listener_effect.
    + match goal with
      | |- context [readFile_callback H ?e ?c _] =>
          exact (called_calls (dequeue_read s) _ 2
                   (proj2 (readFile_callback_effect H e c (dequeue_read s))))
      end.
Qed.


(** Without accessors on the handlers object, [handle] runs no caller
    code and a callback runs the handler only. *)
Lemma set_property_plain (key : string) (v : value) (s : Sys N) :
  accessor_free H (handlers (this s)) ->
  world (snd (set_property H key v s)) = world s.
Proof.
  intros Hfree. specialize (Hfree key).
  unfold find_property in Hfree.
  unfold set_property. unfold bind at 1, gets at 1. cbn beta iota.
  destruct (own_property (handlers (this s)) key)
    as [| u [|] | | g [f |]]; try reflexivity; try contradiction.
  - destruct (inherited H (handlers (this s)) key)
      as [| u [|] | | g [f |]]; try reflexivity; try contradiction;
      try (destruct (extensible (handlers (this s))); reflexivity).
    unfold bind, lift, update.
    now destruct (set_prototype (handlers (this s)) v).
  - unfold bind, lift, update.
    now destruct (set_prototype (handlers (this s)) v).
Qed.

Lemma handle_plain (type : string) (handler : value) (s : Sys N) :
  accessor_free H (handlers (this s)) ->
  world (snd (handle H type handler s)) = world s.
Proof.
  intros Hfree. rewrite handle_eq.
  pose proof (get_property_plain H type s Hfree) as Hget.
  destruct (get_property H type s) as [[current | e] s1]; simpl in Hget;
    subst s1; [| reflexivity].
  destruct (loose_eq_undefined current); [reflexivity |].
  now apply set_property_plain.
Qed.

Lemma dispatch_plain (key : string) (args : list value) (s : Sys N) :
  accessor_free H (handlers (this s)) ->
  called (world s)
    (world (snd ((let* h := get_property H key in call_method H h args) s))) 1.
Proof.
  intros Hfree. unfold bind.
  pose proof (get_property_plain H key s Hfree) as Hget.
  destruct (get_property H key s) as [[h | e] s1]; simpl in Hget; subst s1;
    [apply call_method_effect | apply called_refl].
Qed.

Lemma perform_calls_plain (a : action) (s : Sys N) :
  accessor_free H (handlers (this s)) ->
  exists suffix : list event,
    calls (perform H a s) = (calls s ++ suffix)%list
    /\ length suffix <= calls_out_plain a.
Proof.
  intros Hfree.
  destruct (calls_out a) eqn:Hout.
  - apply calls_unchanged. now apply perform_calls_quiet.
  - destruct a as [c | r | options | type handler | touch | | | | | |
                  | id | id error | error data | o];
      try discriminate Hout; cbn [perform calls_out_plain].
    + apply called_calls. unfold render. run_monad. apply call_called.
    + apply calls_unchanged. unfold calls. now rewrite handle_plain.
    + apply called_calls. now apply dispatch_plain.
    + unfold readFile_callback. destruct (to_boolean error).
      * exact (called_calls (dequeue_read s) _ 1
                 (dispatch_plain "error" [error] (dequeue_read s) Hfree)).
      * pose proof (dispatch_plain "reload" [data]
                      {| this := with_content data (this (dequeue_read s));
                         world := world (dequeue_read s) |} Hfree) as Hdispatch.
        apply (called_calls (dequeue_read s)).
        unfold bind, update in *. cbn [this world] in Hdispatch.
        destruct (get_property H "reload" _) as [[h | e] s1]; [| exact Hdispatch].
        destruct (call_method H h [data] s1) as [[u | e] s2]; exact Hdispatch.
Qed.

End Runtime.

(* ------------------------------------------------------------------ *)
(** ** The specification, claim by claim *)

(** *** The debounce gate *)

(** C1. [_delay_check] answers true exactly when the clock reading minus
    the stored [last_update] exceeds [watcher_delay], subtraction and
    comparison being those of the language (binary64). When the answer is
    true and [touch] is set, the check itself stores a fresh clock reading
    in [last_update]; in every other case the instance is left as it was. *)
Theorem delay_check_gate (H : Host doubles) (touch : value) (s : Sys doubles) :
  let now := clock H (ticks (world s)) in
  let now' := clock H (S (ticks (world s))) in
  let elapsed := PrimFloat.sub now (last_update (this s)) in
  let accepted := PrimFloat.ltb (watcher_delay (this s)) elapsed in
  let touches := accepted && to_boolean (default_parameter touch (VBoolean true)) in
  let after := snd (_delay_check H touch s) in
  fst (_delay_check H touch s) = Normal accepted
  /\ this after = (if touches then with_last_update now' (this s) else this s)
  /\ last_update (this after) = (if touches then now' else last_update (this s))
  /\ world after = (if touches then tick (tick (world s)) else tick (world s)).
Proof.
  intros now now' elapsed accepted touches after.
  subst after. rewrite delay_check_eq. unfold gate_opens, touching.
  cbn [exceeds minus doubles fst snd].
  fold now. fold elapsed. fold accepted. fold touches.
  destruct touches; simpl; auto.
Qed.

(** The gate works in binary64, not in exact arithmetic. With a delay of
    2^53 and construction at reading 1, [last_update] is 1 - 2^53; at
    reading 2 the elapsed time 2^53 + 1 rounds to 2^53, which does not
    exceed the delay, where exact arithmetic would open the gate. *)
Lemma delay_check_rounds :
  fst (_delay_check rounding_host VUndefined rounding_constructed) = Normal false
  /\ fst (_delay_check exact_host VUndefined exact_constructed) = Normal true.
Proof. split; reflexivity. Qed.

(** NaN compares false with everything. *)
Lemma exceeds_nan (x : float) : exceeds doubles x nan = false.
Proof.
  cbn [exceeds doubles]. rewrite FloatAxioms.ltb_spec.
  change (Prim2SF nan) with S754_nan. reflexivity.
Qed.

(** *** Reloading *)

(** C2. Calling [_reload_content] queues one read and returns; it runs no
    handler and cannot throw. When the read fails, the callback leaves the
    content as it was and calls the error handler with the failure. When
    it succeeds, the callback stores the new content and then calls the
    reload handler with it: the handler starts from the state that already
    holds the new content. *)
Theorem reload_content_outcomes
    {N : Numbers} (H : Host N) (s : Sys N) (error data : value) :
  let queued := snd (_reload_content s) in
  let done := readFile_callback H error data s in
  fst (_reload_content s) = Normal tt
  /\ this queued = this s
  /\ pending_reads (world queued) = S (pending_reads (world s))
  /\ trace (world queued) = (trace (world s) ++ [FsReadFile (path (this s))])%list
  /\ content (this (snd done)) = (if to_boolean error then content (this s) else data)
  /\ (forall on_error : function,
        own (handlers (this s)) !! "error" = Some (VFunction on_error) ->
        to_boolean error = true ->
        let outcome := completes_method H on_error (handlers (this s)) [error] in
        done = (fst outcome,
                {| this := with_handlers (snd outcome) (this s);
                   world := invoked on_error [error] (world s) |})
        /\ trace (world (snd done)) =
             (trace (world s) ++ [Invoke on_error [error]])%list
        /\ content (this (snd done)) = content (this s))
  /\ (forall on_reload : function,
        own (handlers (this s)) !! "reload" = Some (VFunction on_reload) ->
        to_boolean error = false ->
        let stored := {| this := with_content data (this s); world := world s |} in
        content (this stored) = data
        /\ done = (let* _ := call_method H (VFunction on_reload) [data] in
                   ret VUndefined) stored
        /\ trace (world (snd done)) =
             (trace (world s) ++ [Invoke on_reload [data]])%list
        /\ content (this (snd done)) = data).
Proof.
  intros queued done. subst queued done.
  assert (Hcontent : content (this (snd (readFile_callback H error data s))) =
                       (if to_boolean error then content (this s) else data)).
  { destruct (readFile_callback_effect H error data s) as [[hs ->] _].
    now destruct (to_boolean error). }
  split; [reflexivity |]. split; [reflexivity |].
  split; [reflexivity |]. split; [reflexivity |].
  split; [exact Hcontent |]. split.
  - intros on_error Hslot Herr outcome. rewrite Herr in Hcontent.
    split; [| split; [| exact Hcontent]].
    + unfold readFile_callback. rewrite Herr. unfold bind.
      rewrite (get_own H _ _ _ Hslot). apply call_method_function.
    + unfold readFile_callback. rewrite Herr. unfold bind.
      rewrite (get_own H _ _ _ Hslot), call_method_function.
      unfold invoked. now destruct (is_default on_error).
  - intros on_reload Hslot Herr stored. rewrite Herr in Hcontent.
    split; [reflexivity |].
    assert (Hslot' : own (handlers (this stored)) !! "reload"
                     = Some (VFunction on_reload)) by exact Hslot.
    split; [| split; [| exact Hcontent]].
    + unfold readFile_callback. rewrite Herr. unfold bind at 1 2, update.
      fold stored. now rewrite (get_own H _ _ _ Hslot').
    + unfold readFile_callback. rewrite Herr. unfold bind, update.
      fold stored. rewrite (get_own H _ _ _ Hslot'), call_method_function.
      unfold invoked.
      destruct (is_default on_reload),
        (fst (completes_method H on_reload (handlers (this stored)) [data]));
        reflexivity.
Qed.

(** A failed and a successful read on the instance of the worked example,
    whose handlers are still the default ones. *)
Lemma reload_content_outcomes_witness :
  (trace (world (snd (readFile_callback example_host (VObject (HostObject 0))
                        VUndefined example_constructed))) =
     (trace (world example_constructed)
      ++ [Invoke DefaultError [VObject (HostObject 0)]])%list
   /\ content (this (snd (readFile_callback example_host (VObject (HostObject 0))
                            VUndefined example_constructed))) =
        content (this example_constructed))
  /\ (trace (world (snd (readFile_callback example_host VNull (VString "<p>hi</p>")
                           example_constructed))) =
        (trace (world example_constructed)
         ++ [Invoke DefaultReload [VString "<p>hi</p>"]])%list
      /\ content (this (snd (readFile_callback example_host VNull
                               (VString "<p>hi</p>") example_constructed))) =
           VString "<p>hi</p>").
Proof.
  split.
  - destruct (reload_content_outcomes example_host example_constructed
                (VObject (HostObject 0)) VUndefined)
      as (_ & _ & _ & _ & _ & Hfail & _).
    apply (Hfail DefaultError); vm_compute; reflexivity.
  - destruct (reload_content_outcomes example_host example_constructed
                VNull (VString "<p>hi</p>"))
      as (_ & _ & _ & _ & _ & _ & Hok).
    apply (Hok DefaultReload); vm_compute; reflexivity.
Defined.

(** *** Construction *)

(** C5, as the code behaves. [new LiveFile({ path, watcher_delay,
    renderer })] reads the clock once, stores that reading minus
    [watcher_delay] in [last_update] and calls [FileSystem.watch]. When
    the call returns a watcher, the instance holds it and [readFile] is
    called exactly once, whatever the delay, without the debounce check
    being run (the clock is not read again). When the call throws, the
    exception leaves the constructor: nothing is watched and nothing is
    read. *)
Theorem construction_effects
    {N : Numbers} (H : Host N) (p : string) (delay : number N) (r : value)
    (w : World) :
  let now := clock H (ticks w) in
  let id := length (fs_watchers w) in
  let made := snd (constructor H p delay r w) in
  (path (this made) = p
   /\ watcher_delay (this made) = delay
   /\ last_update (this made) = minus N now delay
   /\ renderer (this made) = r
   /\ handlers (this made) = default_handlers
   /\ content (this made) = VUndefined
   /\ ticks (world made) = S (ticks w))
  /\ match watch_throws H (trace w) p with
     | None =>
         fst (constructor H p delay r w) = Normal tt
         /\ watcher (this made) = Some id
         /\ fs_watchers (world made) = (fs_watchers w ++ [true])%list
         /\ watching id (world made) = true
         /\ trace (world made) =
              (trace w ++ [FsWatch p id; WatcherOnError id; FsReadFile p])%list
         /\ pending_reads (world made) = S (pending_reads w)
         /\ reads_issued made = S (length (List.filter is_read (trace w)))
     | Some e =>
         fst (constructor H p delay r w) = Throw e
         /\ watcher (this made) = None
         /\ fs_watchers (world made) = fs_watchers w
         /\ trace (world made) = (trace w ++ [FsWatchThrew p])%list
         /\ pending_reads (world made) = pending_reads w
         /\ reads_issued made = length (List.filter is_read (trace w))
     end.
Proof.
  intros now id made. subst made.
  unfold constructor, bind. rewrite init_watcher_eq.
  cbn [this world path trace tick fs_watchers].
  destruct (watch_throws H (trace w) p) as [e |]; cbn [fst snd].
  - split; [repeat split |]. unfold reads_issued. simpl.
    repeat split. rewrite List.filter_app, length_app. simpl. lia.
  - split; [repeat split |]. unfold reads_issued, watching. simpl.
    fold id. repeat split.
    + subst id. now rewrite lookup_app_r, Nat.sub_diag by lia.
    + now rewrite <- !app_assoc.
    + rewrite !List.filter_app, !length_app. simpl. lia.
Qed.

(** C5, as the specification words it, on a path that does not exist:
    [FileSystem.watch] throws, the constructor throws with it, and no read
    is issued. *)
Lemma construction_without_read :
  let made := constructor missing_path_host "gone.html" 100%Z
                (VFunction (Closure 0)) boot in
  fst made = Throw (Raised (VObject (HostObject 404)))
  /\ reads_issued (snd made) = 0
  /\ pending_reads (world (snd made)) = 0
  /\ fs_watchers (world (snd made)) = [].
Proof. repeat split. Qed.

(** Why the baseline is pre-dated: on whole milliseconds the first change
    after construction opens the gate exactly when the clock has moved on,
    whatever the delay. *)
Lemma first_change_after_construction
    (H : Host integers) (p : string) (delay : Z) (r : value) (w : World) :
  gate_opens H (snd (constructor H p delay r w)) =
    (clock H (S (ticks w)) >? clock H (ticks w))%Z.
Proof.
  unfold constructor, bind. rewrite init_watcher_eq.
  destruct (watch_throws H _ _); unfold gate_opens; simpl;
    rewrite !Z.gtb_ltb;
    destruct (Z.ltb_spec delay (clock H (S (ticks w)) - (clock H (ticks w) - delay)));
    destruct (Z.ltb_spec (clock H (ticks w)) (clock H (S (ticks w))));
    reflexivity || lia.
Qed.

(** In binary64 the delay does not cancel out: with a delay of 0.1 ms the
    first change is accepted at the very reading of the construction. *)
Lemma fractional_delay_opens_at_once :
  clock still_host 1 = clock still_host 0
  /\ gate_opens still_host fractional_constructed = true.
Proof. split; reflexivity. Qed.

(** *** The worked example of the debounce policy *)

(** C3, as the code behaves. Delay 100 ms, construction at 0 ms, changes
    reported at 50 ms and at 150 ms. Construction issues its read and sets
    the baseline to -100; the change at 50 ms is therefore accepted (150
    ms have passed on the books) and moves the baseline to 50; the change
    at 150 ms comes exactly 100 ms later, which does not exceed the delay,
    and is rejected. *)
Theorem debounce_example :
  reads_issued example_constructed = 1
  /\ last_update (this example_constructed) = (-100)%Z
  /\ fst (_delay_check example_host VUndefined example_constructed) = Normal true
  /\ reads_issued example_after_50 = 2
  /\ last_update (this example_after_50) = 50%Z
  /\ fst (_delay_check example_host VUndefined example_after_50) = Normal false
  /\ reads_issued example_after_150 = 2
  /\ last_update (this example_after_150) = 50%Z.
Proof. vm_compute. repeat split. Qed.

(** C3, as the specification words it: the change at 50 ms rejected (no
    read), the change at 150 ms accepted (a read). The run does the
    opposite. *)
Lemma debounce_example_as_specified_fails :
  ~ (reads_issued example_constructed = 1
     /\ reads_issued example_after_50 = reads_issued example_constructed
     /\ reads_issued example_after_150 = S (reads_issued example_after_50)).
Proof. vm_compute. intros (_ & Hrejected & _). discriminate Hrejected. Qed.

(** *** The renderer *)

(** C6. [set_renderer] given anything but a function throws at once and
    leaves the instance as it was; given a function it stores it, and the
    next [render] calls that function. *)
Theorem set_renderer_spec {N : Numbers} (H : Host N) (r : value) (s : Sys N) :
  match r with
  | VFunction f =>
      set_renderer r s =
        (Normal tt, {| this := with_renderer r (this s); world := world s |})
      /\ forall options : value,
           let args := [content (this s);
                        default_parameter options (VObject EmptyObject)] in
           render H options (snd (set_renderer r s)) =
             (completes H f args,
              {| this := with_renderer r (this s);
                 world := emit (Invoke f args) (world s) |})
  | _ =>
      set_renderer r s =
        (Throw (Error
           "set_renderer(renderer) -> renderer must be a Function -> (content, options) => {}"),
         s)
  end.
Proof. destruct r; try reflexivity. split; reflexivity. Qed.

(** C7, as the code behaves. [render(options)] calls the stored renderer
    once, synchronously, with the cached content and with the options it
    was given, except that [undefined] (or no argument) is replaced by an
    empty object; it returns (or throws) whatever the renderer does, and
    changes nothing but the trace. A second call calls the renderer again
    with the same arguments, so a renderer that is a function of its
    arguments gives the same result. *)
Theorem render_spec {N : Numbers} (H : Host N) (options : value) (s : Sys N) :
  let passed := default_parameter options (VObject EmptyObject) in
  let args := [content (this s); passed] in
  (options <> VUndefined -> passed = options)
  /\ (options = VUndefined -> passed = VObject EmptyObject)
  /\ match renderer (this s) with
     | VFunction f =>
         render H options s =
           (completes H f args,
            {| this := this s; world := emit (Invoke f args) (world s) |})
         /\ render H options (snd (render H options s)) =
              (completes H f args,
               {| this := this s;
                  world := emit (Invoke f args)
                             (emit (Invoke f args) (world s)) |})
     | _ => render H options s = (Throw TypeError, s)
     end.
Proof.
  intros passed args. subst args passed.
  split; [destruct options; simpl; intros; congruence |].
  split; [intros ->; reflexivity |].
  unfold render. run_monad.
  destruct (renderer (this s)) eqn:Hr; try reflexivity.
  split; [reflexivity |]. simpl. now rewrite Hr.
Qed.

(** C7, as the specification words it, at [render(undefined)]: the
    renderer is not called with the options that were supplied. *)
Lemma render_undefined_options_not_passed :
  let before := example_constructed in
  let after := snd (render example_host VUndefined before) in
  world after =
    emit (Invoke (Closure 0) [content (this before); VObject EmptyObject])
         (world before)
  /\ world after <>
       emit (Invoke (Closure 0) [content (this before); VUndefined])
            (world before).
Proof. split; [reflexivity | vm_compute; discriminate]. Qed.

(** *** The timestamp *)

Lemma perform_last_update_le (H : Host integers) (a : action) (s : Sys integers) :
  clock_monotone H ->
  (0 <= watcher_delay (this s))%Z ->
  (last_update (this s) <= last_update (this (perform H a s)))%Z.
Proof.
  intros Hmono Hdelay. rewrite perform_last_update.
  destruct (checks_gate a && gate_opens H s) eqn:Hgate; [| lia].
  apply andb_true_iff in Hgate as [_ Hopen].
  unfold gate_opens in Hopen. cbn [exceeds minus integers] in Hopen.
  apply Z.gtb_gt in Hopen.
  specialize (Hmono (ticks (world s)) (S (ticks (world s)))). lia.
Qed.

Lemma readings_0_50_150_monotone : clock_monotone example_host.
Proof.
  intros i j Hij. simpl.
  destruct i as [| [| [| i]]], j as [| [| [| j]]]; simpl; lia.
Qed.

Lemma millisecond_clock_monotone :
  clock_monotone (quiet_host integers millisecond_clock).
Proof. intros i j Hij. simpl. unfold millisecond_clock. lia. Qed.

Lemma quiet_host_keeps (N : Numbers) (readings : nat -> number N) :
  methods_keep_receiver (quiet_host N readings).
Proof. intros f receiver args. reflexivity. Qed.

(** C9, with the assumption it needs, on whole milliseconds. Over a clock
    that never goes back, on an instance whose [watcher_delay] is not
    negative, every action either leaves [last_update] as it is or - when
    it is a debounce check in writing mode that opens the gate - sets it to
    the clock reading just taken, which is later than the value it
    replaces; so along any history [last_update] never decreases. (The
    constructor is the other writer: it sets the first value, see
    [construction_effects].) *)
Theorem last_update_monotone (H : Host integers) (s : Sys integers) :
  clock_monotone H ->
  (0 <= watcher_delay (this s))%Z ->
  (forall a : action,
     let s' := perform H a s in
     if checks_gate a && gate_opens H s
     then last_update (this s') = clock H (S (ticks (world s)))
          /\ (last_update (this s) < last_update (this s'))%Z
     else last_update (this s') = last_update (this s))
  /\ (forall history : list action,
        (last_update (this s) <= last_update (this (run H history s)))%Z).
Proof.
  intros Hmono Hdelay. split.
  - intros a s'. subst s'. rewrite perform_last_update.
    destruct (checks_gate a && gate_opens H s) eqn:Hgate; [| reflexivity].
    split; [reflexivity |].
    apply andb_true_iff in Hgate as [_ Hopen].
    unfold gate_opens in Hopen. cbn [exceeds minus integers] in Hopen.
    apply Z.gtb_gt in Hopen.
    specialize (Hmono (ticks (world s)) (S (ticks (world s)))). lia.
  - intros history. revert s Hdelay.
    induction history as [| a rest IH]; intros s Hdelay; simpl; [lia |].
    destruct (enabled a s); [| now apply IH].
    transitivity (last_update (this (perform H a s))).
    + now apply perform_last_update_le.
    + apply IH. now rewrite perform_watcher_delay.
Qed.

(** The worked example again: both changes, delivered in order. *)
Lemma last_update_monotone_witness :
  (last_update (this example_constructed)
   <= last_update (this (run example_host [Changed 0; Changed 0]
                           example_constructed)))%Z.
Proof.
  apply (last_update_monotone example_host example_constructed).
  - exact readings_0_50_150_monotone.
  - vm_compute. discriminate.
Defined.

(** C9 without that assumption. The delay is -1000 and the clock ticks
    once per evaluation: construction at 0 sets [last_update] to 1000, and
    the first change, at 1, opens the gate and writes 2. *)
Lemma last_update_goes_back_under_negative_delay :
  clock_monotone (quiet_host integers millisecond_clock)
  /\ last_update (this negative_delay_constructed) = 1000%Z
  /\ last_update (this (perform (quiet_host integers millisecond_clock) (Changed 0)
                          negative_delay_constructed)) = 2%Z
  /\ (last_update (this (perform (quiet_host integers millisecond_clock) (Changed 0)
                           negative_delay_constructed))
      < last_update (this negative_delay_constructed))%Z.
Proof.
  split; [exact millisecond_clock_monotone |].
  repeat split.
Qed.

(** *** Handler registration *)

(** C10, as the code behaves. [handle] does not look at the handler it is
    given: a slot that holds a value other than [undefined] and [null] (as
    'reload' and 'error' do on a new instance) takes any value,
    [undefined] included. While the slot holds [undefined], every [handle]
    for that kind throws the unsupported-event error and changes nothing.
    No method of the instance refills the slot: it keeps [undefined] along
    every history in which the caller's functions leave the handlers
    object alone. *)
Theorem undefined_handler_disables_kind
    {N : Numbers} (H : Host N) (s : Sys N) (kind : string) (current : value) :
  own (handlers (this s)) !! kind = Some current ->
  loose_eq_undefined current = false ->
  (forall v : value,
     fst (handle H kind v s) = Normal tt
     /\ own (handlers (this (snd (handle H kind v s)))) !! kind = Some v
     /\ world (snd (handle H kind v s)) = world s)
  /\ (forall (s' : Sys N) (handler : value),
        own (handlers (this s')) !! kind = Some VUndefined ->
        handle H kind handler s' = (Throw (unsupported kind), s'))
  /\ (methods_keep_receiver H ->
      forall (history : list action) (handler : value),
        Forall (fun a => tampers a = false) history ->
        let later := run H history (snd (handle H kind VUndefined s)) in
        own (handlers (this later)) !! kind = Some VUndefined
        /\ handle H kind handler later = (Throw (unsupported kind), later)).
Proof.
  intros Hown Hnull. split; [| split].
  - intros v. rewrite (handle_replaces H kind current v s Hown Hnull). simpl.
    split; [reflexivity |]. split; [apply lookup_insert_eq | reflexivity].
  - intros s' handler Hslot. now apply (handle_disabled H kind VUndefined).
  - intros Hkeep history handler Hquiet later.
    assert (Hlater : own (handlers (this later)) !! kind = Some VUndefined).
    { subst later. apply run_keeps_slot; [assumption | assumption | | reflexivity].
      rewrite (handle_replaces H kind current VUndefined s Hown Hnull). simpl.
      apply lookup_insert_eq. }
    split; [exact Hlater |].
    now apply (handle_disabled H kind VUndefined).
Qed.

(** On the instance of the worked example: 'reload' is given [undefined],
    the two changes are delivered and both reads complete, and a real
    handler is then offered. *)
Lemma undefined_handler_disables_kind_witness :
  let later :=
    run example_host
      [Changed 0; Changed 0; ReadDone VNull (VString "a"); ReadDone VNull (VString "b")]
      (snd (handle example_host "reload" VUndefined example_constructed)) in
  handle example_host "reload" (VFunction (Closure 1)) later =
    (Throw (Error "reload event is not supported on LiveFile."), later).
Proof.
  intros later.
  destruct (undefined_handler_disables_kind example_host example_constructed
              "reload" (VFunction DefaultReload)) as (_ & _ & Hstays);
    [reflexivity | reflexivity |].
  apply Hstays.
  - apply quiet_host_keeps.
  - repeat constructor.
Defined.

(** C10, as the specification words it. The caller registers
    [function () { this.reload = g }] under 'error' and [undefined] under
    'reload'; 'reload' is rejected from then on, until the watcher reports
    an error: the error handler runs on the handlers object and refills
    the slot, and the next registration under 'reload' is accepted. *)
Lemma undefined_handler_is_not_permanent :
  let s0 := snd (constructor rebinding_host "page.html" 100%Z
                   (VFunction (Closure 0)) boot) in
  let s1 := snd (handle rebinding_host "error" (VFunction (Closure 1)) s0) in
  let s2 := snd (handle rebinding_host "reload" VUndefined s1) in
  let s3 := run rebinding_host [WatcherFailed 0 (VObject (HostObject 7))] s2 in
  let s4 := snd (handle rebinding_host "reload" (VFunction (Closure 3)) s3) in
  fst (handle rebinding_host "reload" VUndefined s1) = Normal tt
  /\ fst (handle rebinding_host "reload" (VFunction (Closure 3)) s2)
     = Throw (Error "reload event is not supported on LiveFile.")
  /\ fst (handle rebinding_host "reload" (VFunction (Closure 3)) s3) = Normal tt
  /\ own (handlers (this s4)) !! "reload" = Some (VFunction (Closure 3)).
Proof. vm_compute. repeat split. Qed.

Lemma default_handlers_ordinary : handlers_ordinary default_handlers.
Proof.
  split; [reflexivity |]. split; [reflexivity |].
  intros key [v Hv]. unfold default_handlers in Hv. simpl in Hv.
  apply lookup_insert_Some in Hv as [[<- _] | [_ Hv]]; [now left |].
  apply lookup_insert_Some in Hv as [[<- _] | [_ Hv]]; [now right; left |].
  now rewrite lookup_empty in Hv.
Qed.

Section Ordinary.

Context {N : Numbers} (H : Host N).

Lemma ordinary_find (o : object) (key : string) :
  handlers_ordinary o ->
  find_property H o key =
    match own o !! key with
    | Some v => DataProperty v true
    | None => object_prototype_property key
    end.
Proof.
  intros (Hproto & Hguarded & _).
  unfold find_property, own_property, inherited.
  rewrite Hguarded, Hproto, lookup_empty. now destruct (own o !! key).
Qed.

Lemma ordinary_accessor_free (o : object) :
  handlers_ordinary o -> accessor_free H o.
Proof.
  intros Hord key. rewrite (ordinary_find o key Hord).
  destruct (own o !! key); [exact I |].
  unfold object_prototype_property.
  destruct (decide (key = "__proto__")); [exact I |].
  destruct (decide (key ∈ object_prototype_methods)); exact I.
Qed.


Lemma insert_keeps_ordinary (o : object) (type : string) (handler : value) :
  handlers_ordinary o ->
  type = "reload" \/ type = "error" \/ type ∈ object_prototype_methods ->
  handlers_ordinary (with_own (<[type := handler]> (own o)) o).
Proof.
  intros (Hproto & Hguarded & Hown) Htype.
  split; [exact Hproto |]. split; [exact Hguarded |]. simpl.
  intros key Hkey. apply lookup_insert_is_Some in Hkey as [<- | [_ Hkey]];
    [exact Htype | now apply Hown].
Qed.

Lemma handle_keeps_ordinary (type : string) (handler : value) (s : Sys N) :
  handlers_ordinary (handlers (this s)) ->
  type <> "__proto__" ->
  handlers_ordinary (handlers (this (snd (handle H type handler s)))).
Proof.
  intros Hord Hne.
  destruct (own (handlers (this s)) !! type) as [current |] eqn:Hown.
  - destruct (loose_eq_undefined current) eqn:Hnull.
    + now rewrite (handle_disabled H type current handler s Hown Hnull).
    + rewrite (handle_replaces H type current handler s Hown Hnull). simpl.
      apply insert_keeps_ordinary; [assumption |].
      apply (proj2 (proj2 Hord)). eauto.
  - rewrite handle_eq. unfold get_property. run_monad.
    rewrite (ordinary_find _ type Hord), Hown.
    unfold object_prototype_property.
    destruct (decide (type = "__proto__")); [contradiction |].
    destruct (decide (type ∈ object_prototype_methods)) as [Hmethod |];
      simpl; [| assumption].
    unfold set_property, own_property, inherited. run_monad.
    rewrite Hown, (proj1 (proj2 Hord)), lookup_empty, (proj1 Hord). simpl.
    unfold object_prototype_property.
    destruct (decide (type = "__proto__")); [contradiction |].
    destruct (decide (type ∈ object_prototype_methods)); [| contradiction].
    destruct (extensible (handlers (this s))); simpl; [| assumption].
    apply insert_keeps_ordinary; [assumption | tauto].
Qed.

(** The object stays as the class made it for as long as the caller's
    functions leave it alone and no registration is made under
    '__proto__'. *)
Lemma perform_keeps_ordinary (a : action) (s : Sys N) :
  methods_keep_receiver H ->
  tampers a = false ->
  (forall handler, a <> Handle "__proto__" handler) ->
  handlers_ordinary (handlers (this s)) ->
  handlers_ordinary (handlers (this (perform H a s))).
Proof.
  intros Hkeep Htamper Hproto_key Hord.
  destruct (is_handle a) eqn:Hhandle.
  - destruct a; try discriminate. cbn [perform].
    apply handle_keeps_ordinary; [assumption |].
    intros ->. now apply (Hproto_key handler).
  - now rewrite perform_handlers_kept.
Qed.

(** So it does from construction on. *)
Lemma constructed_stays_ordinary
    (p : string) (delay : number N) (r : value) (w : World)
    (history : list action) :
  methods_keep_receiver H ->
  Forall (fun a => tampers a = false
                   /\ forall handler, a <> Handle "__proto__" handler) history ->
  handlers_ordinary
    (handlers (this (run H history (snd (constructor H p delay r w))))).
Proof.
  intros Hkeep.
  assert (Hmade : handlers_ordinary
                    (handlers (this (snd (constructor H p delay r w))))).
  { unfold constructor, bind. rewrite init_watcher_eq.
    destruct (watch_throws H _ _); exact default_handlers_ordinary. }
  revert Hmade. generalize (snd (constructor H p delay r w)).
  induction history as [| a rest IH]; intros s Hord Hquiet; [exact Hord |].
  apply Forall_cons in Hquiet as [[Htamper Hproto_key] Hrest]. cbn [run].
  apply IH; [| exact Hrest].
  destruct (enabled a s); [now apply perform_keeps_ordinary | exact Hord].
Qed.

End Ordinary.

(** Once caller code has made the handlers object non-extensible, a
    registration that would add a property throws a TypeError (class
    bodies are strict), while the two slots still take what they are
    given. *)
Lemma handle_on_sealed_handlers :
  let sealed := {| own := own default_handlers; guarded := ∅;
                   extensible := false; proto := VObject ObjectPrototype |} in
  let s := {| this := with_handlers sealed (this example_constructed);
              world := world example_constructed |} in
  fst (handle example_host "toString" (VFunction (Closure 1)) s) = Throw TypeError
  /\ fst (handle example_host "reload" (VFunction (Closure 1)) s) = Normal tt.
Proof. split; reflexivity. Qed.




(** *** Teardown *)




(* ------------------------------------------------------------------ *)
(** ** Properties beyond the specification *)

(** *** The watch listener *)

(** X1. The listener of lines 101-103 never throws and calls no handler.
    When the gate opens it moves [last_update] and calls [readFile] once;
    when it does not, the change leaves the instance as it was and nothing
    is read. The cached content is not touched either way. *)
Theorem change_effect {N : Numbers} (H : Host N) (id : nat) (s : Sys N) :
  let after := perform H (Changed id) s in
  fst (watch_listener H s) = Normal tt
  /\ reads_issued after = reads_issued s + (if gate_opens H s then 1 else 0)
  /\ pending_reads (world after) =
       pending_reads (world s) + (if gate_opens H s then 1 else 0)
  /\ calls after = calls s
  /\ content (this after) = content (this s)
  /\ (gate_opens H s = false -> this after = this s).
Proof.
  intros after. subst after. unfold perform, reads_issued, calls.
  rewrite watch_listener_eq. simpl.
  destruct (gate_opens H s); simpl;
    rewrite ?List.filter_app, ?length_app; simpl;
    rewrite ?app_nil_r; repeat split; try lia; congruence.
Qed.

(** On the instance of the worked example, after the change at 50 ms: the
    gate is closed at 150 ms. *)
Lemma change_effect_witness :
  this (perform example_host (Changed 0) example_after_50) = this example_after_50.
Proof.
  apply (change_effect example_host 0 example_after_50). reflexivity.
Defined.

(** X2. On whole milliseconds, over a clock that never goes back, a
    debounce check that opens the gate moves [last_update] forward by more
    than [watcher_delay]: two accepted changes are always more than the
    delay apart, whatever the delay is. *)
Theorem accepted_checks_are_spaced
    (H : Host integers) (a : action) (s : Sys integers) :
  clock_monotone H ->
  checks_gate a && gate_opens H s = true ->
  (last_update (this s) + watcher_delay (this s)
   < last_update (this (perform H a s)))%Z.
Proof.
  intros Hmono Hgate. rewrite perform_last_update, Hgate.
  apply andb_true_iff in Hgate as [_ Hopen].
  unfold gate_opens in Hopen. cbn [exceeds minus integers] in Hopen.
  apply Z.gtb_gt in Hopen.
  specialize (Hmono (ticks (world s)) (S (ticks (world s)))). lia.
Qed.

(** The change at 50 ms of the worked example: from -100 to 50. *)
Lemma accepted_checks_are_spaced_witness :
  (last_update (this example_constructed) + watcher_delay (this example_constructed)
   < last_update (this (perform example_host (Changed 0) example_constructed)))%Z.
Proof.
  apply (accepted_checks_are_spaced example_host (Changed 0) example_constructed).
  - exact readings_0_50_150_monotone.
  - reflexivity.
Defined.

Lemma closed_change {N : Numbers} (H : Host N) (id : nat) (s : Sys N) :
  gate_opens H s = false ->
  perform H (Changed id) s = {| this := this s; world := tick (world s) |}.
Proof. intros Hclosed. unfold perform. now rewrite watch_listener_eq, Hclosed. Qed.

(** X3. A burst of changes inside the window does nothing: when the clock
    readings the changes will see are all within [watcher_delay] of
    [last_update], the changes, from any watchers, leave the instance, the
    read queue, the watchers and the trace as they were. Only the clock is
    consulted, once per delivered change. *)
Theorem burst_is_suppressed
    {N : Numbers} (H : Host N) (ids : list nat) (s : Sys N) :
  window_closed H s (length ids) ->
  let after := run H (map Changed ids) s in
  this after = this s
  /\ trace (world after) = trace (world s)
  /\ pending_reads (world after) = pending_reads (world s)
  /\ fs_watchers (world after) = fs_watchers (world s)
  /\ ticks (world s) <= ticks (world after) <= ticks (world s) + length ids.
Proof.
  revert s. induction ids as [| id rest IH]; intros s Hwindow; cbn [map run length].
  - repeat split; lia.
  - destruct (enabled (Changed id) s).
    + assert (Hclosed : gate_opens H s = false).
      { apply Hwindow. simpl. lia. }
      rewrite (closed_change H id s Hclosed).
      destruct (IH {| this := this s; world := tick (world s) |})
        as (Hthis & Htrace & Hreads & Hwatchers & Hticks).
      { intros n Hn. apply Hwindow. simpl in *. lia. }
      simpl in *. repeat split; try assumption; lia.
    + destruct (IH s) as (Hthis & Htrace & Hreads & Hwatchers & Hticks).
      { intros n Hn. apply Hwindow. simpl. lia. }
      repeat split; try assumption; lia.
Qed.

Lemma window_closed_after_50 : window_closed example_host example_after_50 5.
Proof.
  intros n Hn. vm_compute in Hn.
  destruct n as [| [| [| n]]]; try lia. reflexivity.
Qed.

(** After the accepted change at 50 ms of the worked example the clock
    reads 150: five more changes read nothing. *)
Lemma burst_is_suppressed_witness :
  trace (world (run example_host (map Changed [0; 0; 0; 0; 0]) example_after_50))
  = trace (world example_after_50).
Proof.
  apply (burst_is_suppressed example_host [0; 0; 0; 0; 0] example_after_50).
  exact window_closed_after_50.
Defined.

(** *** Who writes what *)

(** X4. The cached content is written by [set_content], by a read that
    succeeds and by [_destroy], and by nothing else: rendering, registering
    handlers, debounce checks, changes, watcher errors and failed reads
    leave it alone, so a history made of those keeps the content. *)
Theorem content_writers {N : Numbers} (H : Host N) (a : action) (s : Sys N) :
  content (this (perform H a s)) =
    match a with
    | SetContent c => c
    | ReadDone error c => if to_boolean error then content (this s) else c
    | Destroy =>
        match watcher (this s) with
        | Some _ => VString ""
        | None => content (this s)
        end
    | _ => content (this s)
    end
  /\ forall history : list action,
       Forall (fun a => writes_content a = false) history ->
       content (this (run H history s)) = content (this s).
Proof.
  split; [apply perform_content |].
  intros history. apply run_keeps_content.
Qed.

(** X5. [path] and [watcher_delay] never change after construction, and
    the renderer changes only through [set_renderer]. The handlers object
    is within reach of [handle], of the two callbacks that call a handler
    on it and of caller code that has been handed it, and of nothing else;
    when the caller's functions leave it alone, only [handle] and such
    caller code change it; and until a function has been called on it, no
    caller code can. *)
Theorem instance_frame
    {N : Numbers} (H : Host N) (history : list action) (s : Sys N) :
  path (this (run H history s)) = path (this s)
  /\ watcher_delay (this (run H history s)) = watcher_delay (this s)
  /\ (Forall (fun a => is_set_renderer a = false) history ->
      renderer (this (run H history s)) = renderer (this s))
  /\ (Forall (fun a => reaches_handlers a = false) history ->
      handlers (this (run H history s)) = handlers (this s))
  /\ (methods_keep_receiver H ->
      Forall (fun a => is_handle a || tampers a = false) history ->
      handlers (this (run H history s)) = handlers (this s))
  /\ (exposed (world s) = false ->
      Forall (fun a => reaches_handlers a && negb (tampers a) = false) history ->
      handlers (this (run H history s)) = handlers (this s)).
Proof.
  split; [apply run_path |]. split; [apply run_watcher_delay |].
  split; [| split; [| split]].
  - revert s. induction history as [| a rest IH]; intros s Hquiet; [reflexivity |].
    apply Forall_cons in Hquiet as [Ha Hrest]. cbn [run].
    rewrite (IH _ Hrest).
    destruct (enabled a s); [now apply perform_renderer | reflexivity].
  - revert s. induction history as [| a rest IH]; intros s Hquiet; [reflexivity |].
    apply Forall_cons in Hquiet as [Ha Hrest]. cbn [run].
    rewrite (IH _ Hrest).
    destruct (enabled a s); [now apply perform_handlers | reflexivity].
  - intros Hkeep. revert s.
    induction history as [| a rest IH]; intros s Hquiet; [reflexivity |].
    apply Forall_cons in Hquiet as [Ha Hrest]. cbn [run].
    rewrite (IH _ Hrest). apply orb_false_iff in Ha as [Hhandle Htamper].
    destruct (enabled a s); [now apply perform_handlers_kept | reflexivity].
  - intros Hhidden Hquiet. now apply run_hidden.
Qed.

(** The handlers object escapes through a call: on the worked example,
    with a function of the caller's registered under 'error', caller code
    cannot touch the object before the watcher has reported an error, and
    can afterwards. *)
Lemma handlers_object_escapes :
  let registered := snd (handle example_host "error" (VFunction (Closure 1))
                           example_constructed) in
  let theirs := with_own ∅ default_handlers in
  handlers (this (run example_host [Tamper theirs] registered))
  = handlers (this registered)
  /\ handlers (this (run example_host
                       [WatcherFailed 0 (VObject (HostObject 7)); Tamper theirs]
                       registered))
     = theirs.
Proof. split; reflexivity. Qed.

(** *** Calls of caller code *)

(** X6. Caller code is called from four places only: [render] calls the
    renderer, once; [handle] runs the accessors its lookup and its
    assignment find on the handlers object; the watcher's error listener
    and the [readFile] callback run the accessor their lookup finds and
    call the handler. Every other action - among them [set_content],
    [set_renderer], the change listener and [_destroy] - calls nothing.
    On a handlers object without accessors, as the class makes it,
    [handle] calls nothing either and the callbacks call the handler
    only. *)
Theorem calls_per_action {N : Numbers} (H : Host N) (a : action) (s : Sys N) :
  exists suffix : list event,
    calls (perform H a s) = (calls s ++ suffix)%list
    /\ length suffix <= calls_out a
    /\ (accessor_free H (handlers (this s)) ->
        length suffix <= calls_out_plain a).
Proof.
  destruct (perform_calls H a s) as (suffix & Hcalls & Hlen).
  exists suffix. split; [exact Hcalls |]. split; [exact Hlen |].
  intros Hfree.
  destruct (perform_calls_plain H a s Hfree) as (suffix' & Hcalls' & Hlen').
  rewrite Hcalls in Hcalls'. apply app_inv_head in Hcalls'. now subst suffix'.
Qed.

(** *** Watchers over time *)

(** X7. [_init_watcher] is an ordinary method, and calling it again does
    not close the watcher the instance already holds. When the new call
    of [FileSystem.watch] succeeds, the instance takes the handle of the
    new watcher, and a later [_destroy] closes that one only: the earlier
    watcher keeps whatever state it had, so if it was watching, its
    changes still reach the instance after teardown. When the call
    throws, the exception leaves [_init_watcher], the instance keeps the
    handle it had, and a later [_destroy] closes that watcher. *)
Theorem init_watcher_again_leaks
    {N : Numbers} (H : Host N) (s : Sys N) (id : nat) :
  watcher_valid s ->
  watcher (this s) = Some id ->
  let fresh := length (fs_watchers (world s)) in
  let again := perform H InitWatcher s in
  let destroyed := perform H Destroy again in
  match watch_throws H (trace (world s)) (path (this s)) with
  | None =>
      fst (_init_watcher H s) = Normal tt
      /\ watcher (this again) = Some fresh
      /\ fresh <> id
      /\ watching fresh (world again) = true
      /\ watching id (world again) = watching id (world s)
      /\ watching fresh (world destroyed) = false
      /\ watching id (world destroyed) = watching id (world s)
      /\ enabled (Changed id) destroyed = enabled (Changed id) s
  | Some e =>
      fst (_init_watcher H s) = Throw e
      /\ watcher (this again) = Some id
      /\ fs_watchers (world again) = fs_watchers (world s)
      /\ watching id (world destroyed) = false
  end.
Proof.
  intros Hvalid Hwatcher fresh again destroyed.
  pose proof (Hvalid id Hwatcher) as Hid.
  assert (Hne : fresh <> id) by (subst fresh; lia).
  subst destroyed again. cbn [perform].
  rewrite init_watcher_eq.
  destruct (watch_throws H (trace (world s)) (path (this s))) as [e |];
    cbn [fst snd]; rewrite destroy_eq; cbn [this world watcher with_watcher].
  - rewrite Hwatcher. unfold watching. simpl.
    repeat split. now rewrite list_lookup_insert_eq.
  - unfold enabled, watching. simpl. fold fresh.
    repeat split; try assumption.
    + now rewrite lookup_app_r, Nat.sub_diag by (subst fresh; lia).
    + now rewrite lookup_app_l by exact Hid.
    + rewrite list_lookup_insert_eq; [reflexivity |].
      rewrite length_app. simpl. subst fresh. lia.
    + rewrite list_lookup_insert_ne by exact Hne.
      now rewrite lookup_app_l by exact Hid.
    + rewrite list_lookup_insert_ne by exact Hne.
      now rewrite lookup_app_l by exact Hid.
Qed.

Lemma example_watcher_valid : watcher_valid example_constructed.
Proof. intros id [= <-]. vm_compute. lia. Qed.

(** The instance of the worked example: after a second [_init_watcher]
    and a [_destroy], watcher 0 still delivers. *)
Lemma init_watcher_again_leaks_witness :
  enabled (Changed 0)
    (run example_host [InitWatcher; Destroy] example_constructed) = true.
Proof.
  pose proof (init_watcher_again_leaks example_host example_constructed 0
                example_watcher_valid eq_refl) as Hleak.
  cbn [watch_throws example_host quiet_host] in Hleak.
  destruct Hleak as (_ & _ & _ & _ & _ & _ & _ & Hstill).
  exact Hstill.
Defined.

(** X8. [_destroy] keeps the handle it has closed, so a second call closes
    the same watcher again: it returns normally and leaves the instance and
    the watchers exactly as the first call left them. *)
Theorem destroy_twice {N : Numbers} (s : Sys N) (id : nat) :
  watcher (this s) = Some id ->
  let once := snd (_destroy s) in
  _destroy once =
    (Normal tt, {| this := this once; world := emit (WatcherClose id) (world once) |})
  /\ watcher (this once) = Some id
  /\ fs_watchers (world (snd (_destroy once))) = fs_watchers (world once).
Proof.
  intros Hwatcher once. subst once. unfold _destroy. run_monad.
  rewrite Hwatcher. simpl. rewrite Hwatcher. simpl.
  unfold emit, watcher_closed. simpl.
  rewrite list_insert_insert_eq. repeat split; assumption.
Qed.

Lemma destroy_twice_witness :
  fst (_destroy (snd (_destroy example_constructed))) = Normal tt.
Proof.
  destruct (destroy_twice example_constructed 0) as (Hrun & _); [reflexivity |].
  now rewrite Hrun.
Defined.

(** X9. A read queued before [_destroy] is not cancelled by it: its
    callback can still run afterwards, and when the read succeeded the
    content that teardown had cleared is replaced by what was read. *)
Theorem destroy_does_not_cancel_reads
    {N : Numbers} (H : Host N) (s : Sys N) (id : nat) (error data : value) :
  watcher (this s) = Some id ->
  0 < pending_reads (world s) ->
  let destroyed := snd (_destroy s) in
  content (this destroyed) = VString ""
  /\ enabled (ReadDone error data) destroyed = true
  /\ content (this (perform H (ReadDone error data) destroyed)) =
       (if to_boolean error then VString "" else data).
Proof.
  intros Hwatcher Hpending destroyed.
  assert (Hrun : destroyed =
            {| this := with_content (VString "") (this s);
               world := emit (WatcherClose id) (watcher_closed id (world s)) |}).
  { subst destroyed. rewrite destroy_eq. now rewrite Hwatcher. }
  rewrite Hrun. split; [reflexivity |]. split.
  - simpl. destruct (pending_reads (world s)); [lia | reflexivity].
  - rewrite perform_content. simpl. destruct (to_boolean error); reflexivity.
Qed.

(** The worked example: the two reads issued before teardown are still
    queued, and the first to complete refills the content. *)
Lemma destroy_does_not_cancel_reads_witness :
  content (this (perform example_host (ReadDone VNull (VString "late"))
                   (snd (_destroy example_after_150)))) = VString "late".
Proof.
  apply (destroy_does_not_cancel_reads example_host example_after_150 0
           VNull (VString "late")).
  - reflexivity.
  - vm_compute. lia.
Defined.

(** X10. Every instance whose construction succeeded holds, after any
    history, the handle of a watcher the runtime knows: [_destroy] never
    throws on it. When the caller's functions leave the handlers object
    alone, the instance also keeps both handler slots as own properties,
    and the callbacks find their handler in the slot itself, never on the
    prototype chain. *)
Theorem instance_stays_well_formed
    {N : Numbers} (H : Host N) (p : string) (delay : number N) (r : value)
    (w : World) (history : list action) :
  fst (constructor H p delay r w) = Normal tt ->
  let s := run H history (snd (constructor H p delay r w)) in
  well_formed s
  /\ fst (_destroy s) = Normal tt
  /\ (methods_keep_receiver H ->
      Forall (fun a => tampers a = false) history ->
      (exists v, own (handlers (this s)) !! "reload" = Some v
                 /\ get_property H "reload" s = (Normal v, s))
      /\ (exists v, own (handlers (this s)) !! "error" = Some v
                    /\ get_property H "error" s = (Normal v, s))).
Proof.
  intros Hmade s.
  assert (Hwf : well_formed s).
  { subst s. now apply run_keeps_well_formed, constructed_well_formed. }
  split; [exact Hwf |].
  destruct Hwf as (_ & [id Hid]).
  split; [rewrite destroy_eq; now rewrite Hid |].
  intros Hkeep Hquiet.
  assert (Hslots : forall key, key = "reload" \/ key = "error" ->
            is_Some (own (handlers (this s)) !! key)).
  { intros key Hkey. subst s. apply run_keeps_keys; [assumption | assumption |].
    unfold constructor, bind. rewrite init_watcher_eq.
    destruct Hkey as [-> | ->];
      destruct (watch_throws H _ _); simpl; eauto. }
  split.
  - destruct (Hslots "reload") as [v Hv]; [now left |].
    exists v. split; [assumption | now apply get_own].
  - destruct (Hslots "error") as [v Hv]; [now right |].
    exists v. split; [assumption | now apply get_own].
Qed.

Lemma instance_stays_well_formed_witness :
  fst (_destroy (run example_host [Changed 0; InitWatcher; Destroy; Changed 0]
                   example_constructed)) = Normal tt.
Proof.
  apply (instance_stays_well_formed example_host "page.html" 100%Z
           (VFunction (Closure 0)) boot
           [Changed 0; InitWatcher; Destroy; Changed 0]).
  reflexivity.
Defined.

(** *** Registration and dispatch *)

(** X11. A function registered under 'reload' is the one the next
    successful read calls, once, on the handlers object, with the content
    just stored; the handler it replaced is not called. *)
Theorem registered_reload_handler_is_called
    {N : Numbers} (H : Host N) (s : Sys N) (current error content : value)
    (f : function) :
  own (handlers (this s)) !! "reload" = Some current ->
  loose_eq_undefined current = false ->
  to_boolean error = false ->
  let s' := snd (handle H "reload" (VFunction f) s) in
  let outcome := completes_method H f (handlers (this s')) [content] in
  readFile_callback H error content s' =
    (match fst outcome with
     | Normal _ => Normal VUndefined
     | Throw e => Throw e
     end,
     {| this := with_handlers (snd outcome) (with_content content (this s'));
        world := invoked f [content] (world s) |}).
Proof.
  intros Hown Hnull Herror s' outcome.
  destruct (handle_then_own H "reload" current (VFunction f) s Hown Hnull)
    as (Hslot & _ & Hworld).
  fold s' in Hslot, Hworld. subst outcome. clearbody s'.
  assert (Hslot' : own (handlers (this
            {| this := with_content content (this s'); world := world s' |}))
            !! "reload" = Some (VFunction f)) by exact Hslot.
  unfold readFile_callback. rewrite Herror. unfold bind, update.
  rewrite (get_own H _ _ _ Hslot'), call_method_function. cbn [fst snd this world].
  rewrite Hworld. cbn [handlers with_content].
  now destruct (fst (completes_method H f (handlers (this s')) [content])).
Qed.

Lemma registered_reload_handler_is_called_witness :
  calls (snd (readFile_callback example_host VNull (VString "<p>hi</p>")
                (snd (handle example_host "reload" (VFunction (Closure 5))
                        example_constructed))))
  = [Invoke (Closure 5) [VString "<p>hi</p>"]].
Proof.
  rewrite (registered_reload_handler_is_called example_host example_constructed
             (VFunction DefaultReload) VNull (VString "<p>hi</p>") (Closure 5));
    reflexivity.
Defined.

(** X12. One error surface: a function registered under 'error' is called
    with the error, on the handlers object, both when the watcher emits
    'error' (line 107) and when a read fails (line 123), and the two
    callbacks then do exactly the same: one call, and nothing else. *)
Theorem registered_error_handler_is_called
    {N : Numbers} (H : Host N) (s : Sys N) (current error content : value)
    (f : function) :
  own (handlers (this s)) !! "error" = Some current ->
  loose_eq_undefined current = false ->
  let s' := snd (handle H "error" (VFunction f) s) in
  let outcome := completes_method H f (handlers (this s')) [error] in
  watcher_error_listener H error s' =
    (fst outcome,
     {| this := with_handlers (snd outcome) (this s');
        world := invoked f [error] (world s) |})
  /\ (to_boolean error = true ->
      readFile_callback H error content s' = watcher_error_listener H error s').
Proof.
  intros Hown Hnull s' outcome.
  destruct (handle_then_own H "error" current (VFunction f) s Hown Hnull)
    as (Hslot & _ & Hworld).
  fold s' in Hslot, Hworld. subst outcome. clearbody s'.
  split.
  - unfold watcher_error_listener, bind.
    rewrite (get_own H _ _ _ Hslot), call_method_function. now rewrite Hworld.
  - intros Herror. unfold readFile_callback. now rewrite Herror.
Qed.

Lemma registered_error_handler_is_called_witness :
  calls (snd (watcher_error_listener example_host (VObject (HostObject 3))
                (snd (handle example_host "error" (VFunction (Closure 6))
                        example_constructed))))
  = [Invoke (Closure 6) [VObject (HostObject 3)]].
Proof.
  destruct (registered_error_handler_is_called example_host example_constructed
              (VFunction DefaultError) (VObject (HostObject 3)) VUndefined (Closure 6))
    as [Hrun _]; [reflexivity | reflexivity |].
  now rewrite Hrun.
Defined.

(** X13. [handle] accepts a value that cannot be called, and the mistake
    surfaces only when the event fires: the next successful read stores the
    new content and then throws a TypeError out of the callback, without
    any handler having run. *)
Theorem non_callable_reload_handler_throws_late
    {N : Numbers} (H : Host N) (s : Sys N) (current handler error content : value) :
  own (handlers (this s)) !! "reload" = Some current ->
  loose_eq_undefined current = false ->
  typeof handler <> "function" ->
  to_boolean error = false ->
  let s' := snd (handle H "reload" handler s) in
  fst (handle H "reload" handler s) = Normal tt
  /\ readFile_callback H error content s' =
       (Throw TypeError,
        {| this := with_content content (this s'); world := world s |}).
Proof.
  intros Hown Hnull Htype Herror s'.
  destruct (handle_then_own H "reload" current handler s Hown Hnull)
    as (Hslot & _ & Hworld).
  fold s' in Hslot, Hworld. clearbody s'.
  split; [now rewrite (handle_replaces H "reload" current handler s Hown Hnull) |].
  assert (Hslot' : own (handlers (this
            {| this := with_content content (this s'); world := world s' |}))
            !! "reload" = Some handler) by exact Hslot.
  unfold readFile_callback. rewrite Herror. unfold bind, update.
  rewrite (get_own H _ _ _ Hslot'), call_method_not_function by assumption.
  now rewrite Hworld.
Qed.

Lemma non_callable_reload_handler_throws_late_witness :
  fst (readFile_callback example_host VNull (VString "<p>hi</p>")
         (snd (handle example_host "reload" (VNumber 42) example_constructed)))
  = Throw TypeError.
Proof.
  destruct (non_callable_reload_handler_throws_late example_host
              example_constructed (VFunction DefaultReload) (VNumber 42)
              VNull (VString "<p>hi</p>")) as [_ Hrun];
    [reflexivity | reflexivity | discriminate | reflexivity |].
  now rewrite Hrun.
Defined.

(** *** Content set by hand *)

(** X14. [set_content] stores any value without looking at it, calls
    nothing and records nothing; the value is what the getter returns and
    what the next [render] hands to the renderer, until a read succeeds or
    the instance is destroyed. *)
Theorem set_content_feeds_render
    {N : Numbers} (H : Host N) (s : Sys N) (c options : value) (f : function) :
  renderer (this s) = VFunction f ->
  let stored := snd (set_content c s) in
  let args := [c; default_parameter options (VObject EmptyObject)] in
  world stored = world s
  /\ get_content stored = (Normal c, stored)
  /\ render H options stored =
       (completes H f args,
        {| this := this stored; world := emit (Invoke f args) (world s) |}).
Proof.
  intros Hrenderer stored args. subst stored args.
  split; [reflexivity |]. split; [reflexivity |].
  unfold render. run_monad. now rewrite Hrenderer.
Qed.

Lemma set_content_feeds_render_witness :
  calls (snd (render example_host VUndefined
                (snd (set_content (VString "<b>x</b>") example_constructed))))
  = [Invoke (Closure 0) [VString "<b>x</b>"; VObject EmptyObject]].
Proof.
  destruct (set_content_feeds_render example_host example_constructed
              (VString "<b>x</b>") VUndefined (Closure 0)) as (_ & _ & Hrun);
    [reflexivity |].
  now rewrite Hrun.
Defined.

(** *** An omitted delay *)

(** X15. [watcher_delay] has no default. On an instance constructed
    without it the delay is [undefined], which the comparison of line 83
    uses as NaN: the gate never opens, whatever the clock reads and
    whatever has happened since, so no change of the file is ever read
    after the constructor's own read. *)
Theorem omitted_delay_never_reloads
    (H : Host doubles) (p : string) (r : value) (w : World)
    (history : list action) (touch : value) (id : nat) :
  let made := snd (constructor H p omitted_delay r w) in
  let s := run H history made in
  gate_opens H s = false
  /\ fst (_delay_check H touch s) = Normal false
  /\ perform H (Changed id) s = {| this := this s; world := tick (world s) |}
  /\ reads_issued (perform H (Changed id) s) = reads_issued s
  /\ last_update (this (perform H (Changed id) s)) = last_update (this s).
Proof.
  intros made s.
  assert (Hdelay : watcher_delay (this s) = nan).
  { subst s made. rewrite run_watcher_delay.
    unfold constructor, bind. rewrite init_watcher_eq.
    now destruct (watch_throws H _ _). }
  assert (Hclosed : gate_opens H s = false).
  { unfold gate_opens. rewrite Hdelay. apply exceeds_nan. }
  split; [exact Hclosed |].
  split; [rewrite delay_check_eq; now rewrite Hclosed |].
  rewrite (closed_change H id s Hclosed).
  repeat split.
Qed.
